(** * ntp-client: one NTP query over UDP

    A shallow embedding of [src/lib/ntp-client.js].  The file has one
    exported function, [getNetworkTime], which opens a UDP socket, sends
    a 48-byte client request, arms a reply timer and registers three
    event handlers (timer expiry, socket ['error'], completion of
    [send]); the completion handler registers a fourth one (a one-shot
    ['message'] listener) which decodes the Transmit Timestamp.

    The embedding has two layers.
    - The handlers are written in a small state-and-exception monad over
      the record [Query], one primitive per JavaScript statement, in
      source order.  Every primitive appends to an effect trace, so that
      "how often was the callback invoked" or "how often was [close]
      called" are questions about that trace.
    - The Node.js runtime is the function [dispatch]: it decides whether
      an external event reaches a handler (a timer that was cleared does
      not fire, a [once] listener is removed when it runs, a closed
      socket receives no datagram).

    JavaScript numbers are IEEE 754 binary64 values; they are modelled by
    the standard library's [spec_float] at precision 53, so that [NaN]
    and rounding are the real ones. *)

From Stdlib Require Import ZArith Lia Bool List QArith Qround.
From Stdlib Require Import Strings.Byte Floats.SpecFloat.
From stdpp Require Import base list strings.

Local Open Scope Z_scope.

(** ** JavaScript values *)

Module Js.

(** Binary64: 53 bits of precision, infinities at exponent 1024. *)
Definition prec : Z := 53.
Definition emax : Z := 1024.

Abbreviation number := spec_float.

Definition add : number -> number -> number := SFadd prec emax.
Definition mul : number -> number -> number := SFmul prec emax.
Definition div : number -> number -> number := SFdiv prec emax.

(** The number denoted by an integer literal (or by a byte read from a
    Buffer): the integer rounded to binary64. *)
Definition of_Z (n : Z) : number := binary_normalize prec emax n 0 false.

Definition is_nan (x : number) : bool :=
  match x with S754_nan => true | _ => false end.

(** The values that occur in the module: primitives, the user's
    callback (a function value, identified by a tag), error objects
    (carrying their message) and [Date] objects.  A [Date] holds its
    time value, an integral number of milliseconds since
    1970-01-01T00:00:00Z, or [None] for the time value NaN
    ("Invalid Date"). *)
Inductive value :=
| Undefined
| Null
| Boolean (b : bool)
| Number (x : number)
| String (s : string)
| Function (tag : nat)
| Error (message : string)
| Date (tv : option Z).

(** [typeof v]. *)
Definition typeof (v : value) : string :=
  match v with
  | Undefined => "undefined"
  | Null => "object"
  | Boolean _ => "boolean"
  | Number _ => "number"
  | String _ => "string"
  | Function _ => "function"
  | Error _ => "object"
  | Date _ => "object"
  end.

(** [v === null]. *)
Definition is_null (v : value) : bool :=
  match v with Null => true | _ => false end.

(** ToBoolean, as used by [if (err)]. *)
Definition ToBoolean (v : value) : bool :=
  match v with
  | Undefined | Null => false
  | Boolean b => b
  | Number (S754_zero _) | Number S754_nan => false
  | Number _ => true
  | String s => negb (String.eqb s "")
  | Function _ | Error _ | Date _ => true
  end.

(** ToNumber on the values an arithmetic operand takes here: an element
    read from a Buffer is a number, or [undefined] when the index is out
    of range.  (Strings and objects never reach an arithmetic operator
    in this module; they are mapped to NaN.) *)
Definition ToNumber (v : value) : number :=
  match v with
  | Undefined => S754_nan
  | Null => S754_zero false
  | Boolean true => of_Z 1
  | Boolean false => S754_zero false
  | Number x => x
  | _ => S754_nan
  end.

(** A default parameter value replaces an [undefined] argument. *)
Definition default_param (arg dflt : value) : value :=
  match arg with Undefined => dflt | _ => arg end.

(** ToIntegerOrInfinity on a finite number: truncation toward zero.
    ([None] for NaN and the infinities, which callers test first.) *)
Definition trunc (x : number) : option Z :=
  match x with
  | S754_zero _ => Some 0
  | S754_finite s m e =>
      let a := match e with
               | Z0 => Zpos m
               | Zpos p => Zpos m * 2 ^ Zpos p
               | Zneg p => Zpos m / 2 ^ Zpos p
               end in
      Some (if s then - a else a)
  | _ => None
  end.

End Js.

(** ** Buffers *)

Abbreviation Buffer := (list byte).

Definition byte_to_Z (b : byte) : Z := Z.of_N (Byte.to_N b).

(** [new Buffer(n)]: [n] bytes whose contents the program must not rely
    on; [junk] stands for whatever the allocator left there. *)
Definition new_Buffer (n : nat) (junk : nat -> byte) : Buffer :=
  map junk (seq 0 n).

(** [buf[i]], reading: the byte as a number, [undefined] out of range. *)
Definition Buffer_get (buf : Buffer) (i : nat) : Js.value :=
  match buf !! i with
  | Some b => Js.Number (Js.of_Z (byte_to_Z b))
  | None => Js.Undefined
  end.

(** [buf[i] = b], writing (an out-of-range write is ignored). *)
Definition Buffer_set (buf : Buffer) (i : nat) (b : byte) : Buffer :=
  <[i := b]> buf.

(** ** Dates

    The parts of ECMAScript's Date used by the module, on integral time
    values (all the numbers involved are integers below 2^53, on which
    binary64 arithmetic is exact). *)

Module Date.

Definition msPerDay : Z := 86400000.
Definition msPerHour : Z := 3600000.
Definition msPerMinute : Z := 60000.
Definition msPerSecond : Z := 1000.

Definition Day (t : Z) : Z := t / msPerDay.
Definition TimeWithinDay (t : Z) : Z := t mod msPerDay.
Definition HourFromTime (t : Z) : Z := (t / msPerHour) mod 24.
Definition MinFromTime (t : Z) : Z := (t / msPerMinute) mod 60.
Definition SecFromTime (t : Z) : Z := (t / msPerSecond) mod 60.
Definition msFromTime (t : Z) : Z := t mod msPerSecond.

Definition DayFromYear (y : Z) : Z :=
  365 * (y - 1970) + (y - 1969) / 4 - (y - 1901) / 100 + (y - 1601) / 400.

(** MakeTime (hour, min, sec, ms): NaN unless [ms] is finite. *)
Definition MakeTime (hour min sec : Z) (ms : Js.number) : option Z :=
  match Js.trunc ms with
  | Some milli =>
      Some (hour * msPerHour + min * msPerMinute + sec * msPerSecond + milli)
  | None => None
  end.

Definition MakeDate (day : Z) (time : option Z) : option Z :=
  match time with
  | Some t => Some (day * msPerDay + t)
  | None => None
  end.

Definition TimeClip (time : option Z) : option Z :=
  match time with
  | Some t => if Z.abs t <=? 8640000000000000 then Some t else None
  | None => None
  end.

(** The time value of 1 January of year [y], 00:00:00.000 UTC. *)
Definition UTC_Jan_01 (y : Z) : Z := DayFromYear y * msPerDay.

(** [new Date('Jan 01 1900 GMT')]. *)
Definition parse_Jan_01_1900_GMT : option Z := Some (UTC_Jan_01 1900).

(** [date.getUTCMilliseconds()]: NaN on an invalid date. *)
Definition getUTCMilliseconds (tv : option Z) : Js.number :=
  match tv with
  | Some t => Js.of_Z (msFromTime t)
  | None => S754_nan
  end.

(** [date.setUTCMilliseconds(ms)]: the new time value. *)
Definition setUTCMilliseconds (tv : option Z) (ms : Js.number) : option Z :=
  match tv with
  | Some t =>
      TimeClip (MakeDate (Day t)
                  (MakeTime (HourFromTime t) (MinFromTime t) (SecFromTime t) ms))
  | None => None
  end.

(** Milliseconds elapsed since 1900-01-01T00:00:00.000Z. *)
Definition ms_since_1900 (tv : option Z) : option Z :=
  match tv with
  | Some t => Some (t - UTC_Jan_01 1900)
  | None => None
  end.

End Date.

(** ** The module's constants *)

Definition defaultNtpPort : Js.value := Js.Number (Js.of_Z 123).
Definition defaultNtpServer : Js.value := Js.String "pool.ntp.org".

(** Amount of acceptable time to await a response, in milliseconds. *)
Definition ntpReplyTimeout : Z := 10000.

(** ** Effects, query state and the handler monad *)

(** What a query does to the outside world, in the order it does it. *)
Inductive Effect :=
| CreateSocket (type : string)
| SetTimeout (ms : Z)
| ClearTimeout
| OnError
| OnceMessage
| Send (datagram : Buffer) (port address : Js.value)
| Close
| Callback (err date : Js.value)
| Uncaught (exn : string).

(** The state of one call of [getNetworkTime]: the closure variable
    [errorFired], what the runtime knows about the socket, the timer and
    the registered listeners, and the trace of effects so far (oldest
    first). *)
Record Query := mkQuery {
  errorFired : bool;
  socketOpen : bool;        (* created and not yet closed *)
  timerPending : bool;      (* armed, neither fired nor cleared *)
  errorListener : bool;     (* client.on('error', ...) registered *)
  messageListener : bool;   (* client.once('message', ...) registered, not yet run *)
  sendPending : bool;       (* send() issued, its callback not yet run *)
  trace : list Effect
}.

(** Before the call: nothing exists. *)
Definition idle : Query :=
  mkQuery false false false false false false [].

Inductive Completion (A : Type) :=
| Normal (a : A)
| Thrown (exn : string).
Arguments Normal {A} a.
Arguments Thrown {A} exn.

Definition Handler (A : Type) : Type := Query -> Completion A * Query.

Definition ret {A} (a : A) : Handler A := fun q => (Normal a, q).

Definition bind {A B} (m : Handler A) (k : A -> Handler B) : Handler B :=
  fun q =>
    match m q with
    | (Normal a, q') => k a q'
    | (Thrown e, q') => (Thrown e, q')
    end.

Declare Scope handler_scope.
Delimit Scope handler_scope with handler.
Notation "x <- m ;; k" := (bind m (fun x => k))
  (at level 100, m at next level, k at level 200, right associativity)
  : handler_scope.
Notation "m ;; k" := (bind m (fun _ => k))
  (at level 100, k at level 200, right associativity) : handler_scope.

Definition log (e : Effect) (q : Query) : Query :=
  mkQuery (errorFired q) (socketOpen q) (timerPending q) (errorListener q)
          (messageListener q) (sendPending q) (trace q ++ [e]).

(** *** Primitives: one per statement of the source *)

(** [dgram.createSocket(type)]. *)
Definition createSocket (type : string) : Handler unit := fun q =>
  (Normal tt,
   log (CreateSocket type)
     (mkQuery (errorFired q) true (timerPending q) (errorListener q)
              (messageListener q) (sendPending q) (trace q))).

(** [setTimeout(handler, ms)]. *)
Definition setTimeout (ms : Z) : Handler unit := fun q =>
  (Normal tt,
   log (SetTimeout ms)
     (mkQuery (errorFired q) (socketOpen q) true (errorListener q)
              (messageListener q) (sendPending q) (trace q))).

(** [clearTimeout(timeout)]: harmless on a timer that fired or was cleared. *)
Definition clearTimeout : Handler unit := fun q =>
  (Normal tt,
   log ClearTimeout
     (mkQuery (errorFired q) (socketOpen q) false (errorListener q)
              (messageListener q) (sendPending q) (trace q))).

(** [errorFired = b]. *)
Definition set_errorFired (b : bool) : Handler unit := fun q =>
  (Normal tt,
   mkQuery b (socketOpen q) (timerPending q) (errorListener q)
           (messageListener q) (sendPending q) (trace q)).

(** Reading [errorFired]. *)
Definition get_errorFired : Handler bool := fun q => (Normal (errorFired q), q).

(** [client.on('error', handler)]. *)
Definition client_on_error : Handler unit := fun q =>
  (Normal tt,
   log OnError
     (mkQuery (errorFired q) (socketOpen q) (timerPending q) true
              (messageListener q) (sendPending q) (trace q))).

(** [client.once('message', handler)]. *)
Definition client_once_message : Handler unit := fun q =>
  (Normal tt,
   log OnceMessage
     (mkQuery (errorFired q) (socketOpen q) (timerPending q) (errorListener q)
              true (sendPending q) (trace q))).

(** [client.send(buf, offset, length, port, address, callback)]: the
    datagram is the slice [buf[offset .. offset+length)]; the completion
    callback runs later, once. *)
Definition client_send (buf : Buffer) (offset length : nat)
    (port address : Js.value) : Handler unit := fun q =>
  (Normal tt,
   log (Send (take length (drop offset buf)) port address)
     (mkQuery (errorFired q) (socketOpen q) (timerPending q) (errorListener q)
              (messageListener q) true (trace q))).

(** [client.close()]: closes the socket; on a socket that is not open
    Node throws ERR_SOCKET_DGRAM_NOT_RUNNING.  The call is logged in
    both cases. *)
Definition client_close : Handler unit := fun q =>
  let q' := log Close
     (mkQuery (errorFired q) false (timerPending q) (errorListener q)
              (messageListener q) (sendPending q) (trace q)) in
  if socketOpen q then (Normal tt, q')
  else (Thrown "ERR_SOCKET_DGRAM_NOT_RUNNING", q').

(** [callback(err, date)]: the user's function is called (and is
    assumed to return). *)
Definition callback_call (err date : Js.value) : Handler unit := fun q =>
  (Normal tt, log (Callback err date) q).

(** ** The request packet (source lines 34-43) *)

(** [for (let i = from; i < to; i += 1) ntpData[i] = 0], with [fuel]
    bounding the number of iterations. *)
Fixpoint zero_fill (fuel : nat) (i to : nat) (ntpData : Buffer) : Buffer :=
  match fuel with
  | O => ntpData
  | S fuel' =>
      if (i <? to)%nat
      then zero_fill fuel' (i + 1)%nat to (Buffer_set ntpData i x00)
      else ntpData
  end.

Definition request_packet (junk : nat -> byte) : Buffer :=
  let ntpData := new_Buffer 48 junk in
  let ntpData := Buffer_set ntpData 0 x1b in
  zero_fill 48 1 48 ntpData.

(** ** Decoding the reply (source lines 85-103) *)

Definition offsetTransmitTime : nat := 40.

(** One iteration of either loop:
    [acc = (256 * acc) + msg[offsetTransmitTime + i]]. *)
Definition accumulate (msg : Buffer) (acc : Js.number) (i : nat) : Js.number :=
  Js.add (Js.mul (Js.of_Z 256) acc)
         (Js.ToNumber (Buffer_get msg (offsetTransmitTime + i))).

(** [for (let i = 0; i <= 3; i += 1) ...], from [intpart = 0]. *)
Definition decode_intpart (msg : Buffer) : Js.number :=
  fold_left (accumulate msg) [0; 1; 2; 3]%nat (S754_zero false).

(** [for (let i = 4; i <= 7; i += 1) ...], from [fractpart = 0]. *)
Definition decode_fractpart (msg : Buffer) : Js.number :=
  fold_left (accumulate msg) [4; 5; 6; 7]%nat (S754_zero false).

(** [(intpart * 1000) + ((fractpart * 1000) / 0x100000000)]. *)
Definition decode_milliseconds (msg : Buffer) : Js.number :=
  Js.add (Js.mul (decode_intpart msg) (Js.of_Z 1000))
         (Js.div (Js.mul (decode_fractpart msg) (Js.of_Z 1000))
                 (Js.of_Z 4294967296)).

(** The time value of [date] after
    [date.setUTCMilliseconds(date.getUTCMilliseconds() + milliseconds)]. *)
Definition decode_date (msg : Buffer) : option Z :=
  let date := Date.parse_Jan_01_1900_GMT in
  Date.setUTCMilliseconds date
    (Js.add (Date.getUTCMilliseconds date) (decode_milliseconds msg)).

(** ** The handlers *)

Section Handlers.

Local Open Scope handler_scope.

(** The closures capture [client], [timeout], [errorFired] and
    [callback] of the enclosing call; these live in the [Query]. *)

(** Lines 45-48: the timer's handler. *)
Definition onTimeout : Handler unit :=
  client_close ;;
  callback_call (Js.String "Timeout waiting for NTP response.") Js.Null.

(** Lines 56-65: the ['error'] listener. *)
Definition onError (err : Js.value) : Handler unit :=
  fired <- get_errorFired ;;
  if fired then ret tt
  else
    callback_call err Js.Null ;;
    set_errorFired true ;;
    clearTimeout.

(** Lines 79-106: the one-shot ['message'] listener. *)
Definition onMessage (msg : Buffer) : Handler unit :=
  clearTimeout ;;
  client_close ;;
  callback_call Js.Null (Js.Date (decode_date msg)).

(** Lines 67-107: the completion callback of [send]. *)
Definition onSend (err : Js.value) : Handler unit :=
  if Js.ToBoolean err then
    fired <- get_errorFired ;;
    if fired then ret tt
    else
      clearTimeout ;;
      callback_call err Js.Null ;;
      set_errorFired true ;;
      client_close
  else
    client_once_message.

End Handlers.

(** ** getNetworkTime (source lines 28-108) *)

Definition getNetworkTime (server port callback : Js.value)
    (junk : nat -> byte) : Handler unit :=
  let server := Js.default_param server defaultNtpServer in
  let port := Js.default_param port defaultNtpPort in
  if Js.is_null callback || negb (String.eqb (Js.typeof callback) "function")
  then ret tt
  else
    (createSocket "udp4" ;;
     let ntpData := request_packet junk in
     setTimeout ntpReplyTimeout ;;
     set_errorFired false ;;
     client_on_error ;;
     client_send ntpData 0 (length ntpData) port server)%handler.

(** ** The runtime: which events reach which handler *)

Inductive Event :=
| TimerExpired
| SocketError (err : Js.value)
| SendCompleted (err : Js.value)
| MessageArrived (msg : Buffer).

(** Removing the one-shot resources an event consumes. *)
Definition consume_timer (q : Query) : Query :=
  mkQuery (errorFired q) (socketOpen q) false (errorListener q)
          (messageListener q) (sendPending q) (trace q).
Definition consume_send (q : Query) : Query :=
  mkQuery (errorFired q) (socketOpen q) (timerPending q) (errorListener q)
          (messageListener q) false (trace q).
Definition consume_listener (q : Query) : Query :=
  mkQuery (errorFired q) (socketOpen q) (timerPending q) (errorListener q)
          false (sendPending q) (trace q).

(** An event runs a handler only when the runtime has one to run:
    - a timer fires once, and not after [clearTimeout];
    - ['error'] is delivered while the listener is registered;
    - the callback of [send] runs once;
    - a datagram reaches the [once] listener only while the socket is
      open, and removes that listener. *)
Definition dispatch (ev : Event) : Handler unit := fun q =>
  match ev with
  | TimerExpired =>
      if timerPending q then onTimeout (consume_timer q) else (Normal tt, q)
  | SocketError err =>
      if errorListener q then onError err q else (Normal tt, q)
  | SendCompleted err =>
      if sendPending q then onSend err (consume_send q) else (Normal tt, q)
  | MessageArrived msg =>
      if messageListener q && socketOpen q
      then onMessage msg (consume_listener q)
      else (Normal tt, q)
  end.

(** One turn of the event loop; an exception that leaves a handler is
    reported as uncaught. *)
Definition step (q : Query) (ev : Event) : Query :=
  match dispatch ev q with
  | (Normal _, q') => q'
  | (Thrown e, q') => log (Uncaught e) q'
  end.

(** The state right after the call [getNetworkTime(server, port, callback)]. *)
Definition start (server port callback : Js.value) (junk : nat -> byte) : Query :=
  match getNetworkTime server port callback junk idle with
  | (Normal _, q) => q
  | (Thrown e, q) => log (Uncaught e) q
  end.

(** The state after the call and the events [evs], in order. *)
Definition run (server port callback : Js.value) (junk : nat -> byte)
    (evs : list Event) : Query :=
  fold_left step evs (start server port callback junk).

(** ** Observations on a trace *)

Definition is_callback (e : Effect) : bool :=
  match e with Callback _ _ => true | _ => false end.
Definition is_success (e : Effect) : bool :=
  match e with Callback _ (Js.Date _) => true | _ => false end.
Definition is_close (e : Effect) : bool :=
  match e with Close => true | _ => false end.
Definition is_send (e : Effect) : bool :=
  match e with Send _ _ _ => true | _ => false end.

(** The invocations of the completion callback, oldest first. *)
Definition callbacks (q : Query) : list Effect := List.filter is_callback (trace q).
(** The invocations that deliver a date. *)
Definition successes (q : Query) : list Effect := List.filter is_success (trace q).
(** The number of calls of [client.close()]. *)
Definition closes (q : Query) : nat := length (List.filter is_close (trace q)).
(** The datagrams handed to [client.send]. *)
Definition datagrams (q : Query) : list Effect := List.filter is_send (trace q).
Definition is_set_timeout (e : Effect) : bool :=
  match e with SetTimeout _ => true | _ => false end.
(** The timers armed with [setTimeout]. *)
Definition timers (q : Query) : list Effect := List.filter is_set_timeout (trace q).

(** ** What the specification says *)

(** The request: byte 0 is 0x1B, bytes 1 to 47 are zero. *)
Definition request : Buffer := x1b :: replicate 47 x00.

(** Byte [i] of a reply, as an integer. *)
Definition byte_at (msg : Buffer) (i : nat) : Z :=
  match msg !! i with Some b => byte_to_Z b | None => 0 end.

(** "intpart = intpart*256 + byte", over bytes 40-43 and over bytes
    44-47, in exact integer arithmetic. *)
Definition spec_accumulate (msg : Buffer) (acc : Z) (i : nat) : Z :=
  acc * 256 + byte_at msg (offsetTransmitTime + i).
Definition spec_intpart (msg : Buffer) : Z :=
  fold_left (spec_accumulate msg) [0; 1; 2; 3]%nat 0.
Definition spec_fractpart (msg : Buffer) : Z :=
  fold_left (spec_accumulate msg) [4; 5; 6; 7]%nat 0.

(** "Milliseconds since epoch = intpart*1000 + fractpart*1000/2^32",
    as a rational number. *)
Definition spec_milliseconds (msg : Buffer) : Q :=
  (inject_Z (spec_intpart msg) * 1000
   + inject_Z (spec_fractpart msg) * 1000 / inject_Z (2 ^ 32))%Q.

(** ** Invariants of a running query *)

(** What holds of every state a query reaches: the ['error'] listener
    stays registered; while the timer is pending the socket is open and
    nothing has been delivered; the ['message'] listener is registered
    only by the completion of [send]. *)
Definition Inv (q : Query) : Prop :=
  errorListener q = true /\
  (timerPending q = true -> socketOpen q = true /\ callbacks q = []) /\
  (sendPending q = true -> messageListener q = false).

(** A query from which no handler can deliver anything any more. *)
Definition Settled (q : Query) : Prop :=
  errorFired q = true /\ timerPending q = false /\
  sendPending q = false /\ messageListener q = false.

(** ** Binary64 arithmetic on exactly representable numbers

    The integers and dyadic fractions the decoder computes with, in the
    form [spec_float] stores them. *)

(** The number of binary digits of a positive integer. *)
Definition dg (n : Z) : Z := Z.log2 n + 1.

(** The state of a right shift of [M] by [n] bits: quotient, round bit
    and sticky bit. *)
Definition shifted (M : Z) (n : Z) : shr_record :=
  Build_shr_record (M / 2 ^ n) (Z.testbit M (n - 1))
                   (negb (M mod 2 ^ (n - 1) =? 0)).

(** [M / 2^k] rounded to the nearest integer, ties to even. *)
Definition rne (M k : Z) : Z :=
  round_nearest_even (M / 2 ^ k) (loc_of_shr_record (shifted M k)).

(** Mantissa and exponent of [M * 2^e] rounded to 53 bits. *)
Definition round53 (M e : Z) : Z * Z :=
  let k := dg M - 53 in
  if k <=? 0 then (M, e)
  else
    let m1 := rne M k in
    if m1 =? 2 ^ 53 then (2 ^ 52, e + k + 1) else (m1, e + k).

Abbreviation F := (S754_finite false).

(** The binary64 number [n * 2^e], for [0 < n < 2^53]. *)
Definition canon (n e : Z) : spec_float :=
  F (Z.to_pos (n * 2 ^ (53 - dg n))) (e + dg n - 53).

(** ... and for [n = 0]. *)
Definition dyadic (n e : Z) : spec_float :=
  if n =? 0 then S754_zero false else canon n e.

(** ** Sample inputs *)

(** A reply whose bytes are all zero. *)
Definition zero_reply : Buffer := replicate 48 x00.
(** Seconds 0, fraction 0x80000000. *)
Definition half_second_reply : Buffer := replicate 44 x00 ++ [x80; x00; x00; x00].
(** Seconds 0, fraction 0x00000001. *)
Definition tiny_fraction_reply : Buffer := replicate 47 x00 ++ [x01].
(** Seconds 0xE0000000, fraction 0xFFFFFFFF. *)
Definition carry_reply : Buffer :=
  replicate 40 x00 ++ [xe0; x00; x00; x00; xff; xff; xff; xff].
(** Seconds 3155673600 = 0xBC17C200 (1900 to 2000), fraction 0. *)
Definition year_2000_reply : Buffer :=
  replicate 40 x00 ++ [xbc; x17; xc2; x00; x00; x00; x00; x00].
(** A datagram cut after the seconds field. *)
Definition short_reply : Buffer := replicate 44 x00.
(** Allocator contents for [new Buffer]. *)
Definition stale : nat -> byte := fun _ => xff.
(** A query in flight: called with a function, [send] completed. *)
Definition awaiting_reply : Query :=
  run Js.Undefined Js.Undefined (Js.Function 0) stale [SendCompleted Js.Null].
(** A query whose socket reported an error before [send] completed. *)
Definition after_socket_error : Query :=
  run Js.Undefined Js.Undefined (Js.Function 0) stale
      [SocketError (Js.Error "EACCES")].

(** ** Further observations on a trace *)

Definition is_uncaught (e : Effect) : bool :=
  match e with Uncaught _ => true | _ => false end.
Definition is_create_socket (e : Effect) : bool :=
  match e with CreateSocket _ => true | _ => false end.
Definition is_once_message (e : Effect) : bool :=
  match e with OnceMessage => true | _ => false end.

(** The exceptions that left a handler. *)
Definition uncaught (q : Query) : list Effect := List.filter is_uncaught (trace q).
(** The sockets created with [dgram.createSocket]. *)
Definition sockets (q : Query) : list Effect :=
  List.filter is_create_socket (trace q).
(** The registrations of the ['message'] listener. *)
Definition listens (q : Query) : list Effect :=
  List.filter is_once_message (trace q).

(** An event that reports a failure: a socket ['error'], or a [send]
    completed with a truthy [err]. *)
Definition failing (ev : Event) : bool :=
  match ev with
  | SocketError _ => true
  | SendCompleted err => Js.ToBoolean err
  | _ => false
  end.

(** An ['error'] event whose argument is truthy (Node passes an Error
    object), or any other event. *)
Definition truthy_error (ev : Event) : bool :=
  match ev with
  | SocketError err => Js.ToBoolean err
  | _ => true
  end.

(** What is still to come: one outcome guarded by [errorFired], one
    that needs the open socket. *)
Definition b2n (b : bool) : nat := if b then 1 else 0.
Definition pending_outcomes (q : Query) : nat :=
  (b2n (negb (errorFired q)) + b2n (socketOpen q))%nat.

(** ** The demonstration entry point (source lines 110-122) *)

(** What [demo] writes, and where. *)
Inductive Console :=
| ConsoleError (v : Js.value)
| ConsoleLog (v : Js.value).

(** Lines 114-121, the callback [demo] passes:
    [if (err) { console.error(err); return }  console.log(date)]. *)
Definition demo_callback (err date : Js.value) : list Console :=
  if Js.ToBoolean err then [ConsoleError err] else [ConsoleLog date].

(** The callback touches nothing of the query, so what [demo] prints is
    its body run on each invocation, in order. *)
Definition console (q : Query) : list Console :=
  flat_map (fun e => match e with
                     | Callback err date => demo_callback err date
                     | _ => []
                     end) (trace q).

(** [demo()] followed by the events [evs]: the call
    [getNetworkTime(defaultNtpServer, defaultNtpPort, callback)]. *)
Definition demo (junk : nat -> byte) (evs : list Event) : Query :=
  run defaultNtpServer defaultNtpPort (Js.Function 0) junk evs.

(** The dates printed with [console.log], and everything printed with
    [console.error]. *)
Definition printed_dates (q : Query) : list Js.value :=
  flat_map (fun c => match c with ConsoleLog v => [v] | _ => [] end) (console q).
Definition printed_errors (q : Query) : list Js.value :=
  flat_map (fun c => match c with ConsoleError v => [v] | _ => [] end) (console q).

(** The dates and the errors handed to the callback. *)
Definition delivered_dates (q : Query) : list Js.value :=
  flat_map (fun e => match e with
                     | Callback _ (Js.Date tv) => [Js.Date tv]
                     | _ => []
                     end) (trace q).
Definition delivered_errors (q : Query) : list Js.value :=
  flat_map (fun e => match e with
                     | Callback err Js.Null => [err]
                     | _ => []
                     end) (trace q).

(** ** The decoded value as an integer computation *)

(** The binary64 sum [a + b / 2^32], scaled by [2^32], for
    [N = a * 2^32 + b]: exact below [2^53], else rounded to 53 bits. *)
Definition round_sum (N : Z) : Z :=
  if N <? 2 ^ 53 then N
  else rne N (dg N - 53) * 2 ^ (dg N - 53).

(** The Transmit Timestamp as one integer, in units of [2^-32] ms. *)
Definition spec_scaled (msg : Buffer) : Z :=
  spec_intpart msg * 1000 * 2 ^ 32 + spec_fractpart msg * 1000.

(** A reply with a server's header and trailing bytes, all timestamp
    bytes zero. *)
Definition padded_zero_reply : Buffer := [x24; x02; x06; xec] ++ replicate 60 x00.

(** ** Invariants behind the further properties *)

(** The timer is pending exactly while nothing has been delivered. *)
Definition Waiting (q : Query) : Prop :=
  (timerPending q = true /\ callbacks q = []) \/
  (timerPending q = false /\ callbacks q <> []).

(** Either nothing has happened to the socket, or one outcome was
    delivered and the socket was closed once. *)
Definition Orderly (q : Query) : Prop :=
  (socketOpen q = true /\ callbacks q = [] /\ closes q = 0%nat) \/
  (socketOpen q = false /\ length (callbacks q) = 1%nat /\ closes q = 1%nat).

(** While [send] is pending no date has been delivered. *)
Definition Unheard (q : Query) : Prop :=
  sendPending q = true -> successes q = [].

(** No ['message'] listener, and none to come. *)
Definition Deaf (q : Query) : Prop :=
  messageListener q = false /\ sendPending q = false.

(** Every invocation of the callback passes a truthy error and [null],
    or [null] and a [Date]. *)
Definition well_formed (e : Effect) : Prop :=
  match e with
  | Callback err date =>
      (Js.ToBoolean err = true /\ date = Js.Null) \/
      (err = Js.Null /\ exists tv, date = Js.Date tv)
  | _ => True
  end.

(** ** Tactics *)

Ltac unfold_step :=
  unfold step, dispatch, onTimeout, onError, onSend, onMessage, bind, ret,
    client_close, callback_call, clearTimeout, set_errorFired, get_errorFired,
    client_once_message, consume_timer, consume_send, consume_listener, log.

(** Closing a goal about the outcomes and [close] calls of one turn. *)
Ltac outcome_case :=
  split; [lia | split; [lia | intros Hne;
    first [reflexivity | exfalso; apply Hne; reflexivity]]].

Ltac unfold_obs :=
  unfold callbacks, successes, closes, datagrams, timers; cbn [trace];
  rewrite ?List.filter_app, ?List.length_app;
  cbn [List.filter is_callback is_success is_close is_send is_set_timeout
       length app].

Ltac unfold_more :=
  unfold callbacks, successes, closes, datagrams, timers, uncaught, sockets,
    listens, pending_outcomes;
  cbn [trace errorFired socketOpen];
  rewrite ?List.filter_app, ?List.length_app;
  cbn [List.filter is_callback is_success is_close is_send is_set_timeout
       is_uncaught is_create_socket is_once_message length app negb b2n];
  rewrite ?app_nil_r, ?Nat.add_0_r.

(** ** Lemmas: shifting and rounding in [spec_float] *)

Lemma digits2_pos_size p : digits2_pos p = Pos.size p.
Proof. induction p; simpl; congruence. Qed.

Lemma Zdigits2_dg p : Zpos (digits2_pos p) = dg (Zpos p).
Proof.
  rewrite digits2_pos_size. unfold dg.
  destruct p; simpl; lia.
Qed.

Lemma dg_bounds n : 0 < n -> 2 ^ (dg n - 1) <= n < 2 ^ dg n.
Proof.
  intros Hn. unfold dg. replace (Z.log2 n + 1 - 1) with (Z.log2 n) by lia.
  replace (Z.log2 n + 1) with (Z.succ (Z.log2 n)) by lia.
  apply Z.log2_spec; lia.
Qed.

Lemma dg_unique n d : 2 ^ (d - 1) <= n < 2 ^ d -> 0 < d -> dg n = d.
Proof.
  intros H Hd. unfold dg.
  assert (Z.log2 n = d - 1); [|lia].
  apply Z.log2_unique.
  - lia.
  - replace (Z.succ (d - 1)) with d by lia. lia.
Qed.

Lemma dg_pos n : 0 < n -> 0 < dg n.
Proof. intros. unfold dg. pose proof (Z.log2_nonneg n). lia. Qed.

Lemma dg_shift n k : 0 < n -> 0 <= k -> dg (n * 2 ^ k) = dg n + k.
Proof.
  intros Hn Hk. unfold dg.
  rewrite Z.log2_mul_pow2 by lia. lia.
Qed.

Lemma dg_le n d : 0 < n -> n < 2 ^ d -> dg n <= d.
Proof.
  intros Hn H. unfold dg.
  destruct (Z_lt_le_dec d 0) as [Hd|Hd].
  - rewrite Z.pow_neg_r in H by lia. lia.
  - assert (Z.log2 n < d); [|lia]. apply Z.log2_lt_pow2; lia.
Qed.

Lemma iter_pos_iter {A} (f : A -> A) p x :
  SpecFloat.iter_pos f p x = Pos.iter f x p.
Proof.
  revert x. induction p; intros x; simpl.
  - rewrite !IHp. rewrite <- Pos.iter_swap. f_equal. rewrite <- Pos.iter_swap. reflexivity.
  - rewrite !IHp. reflexivity.
  - reflexivity.
Qed.

Lemma iter_xO m d : Zpos (Pos.iter xO m d) = Zpos m * 2 ^ Zpos d.
Proof.
  rewrite <- Pos2Z.inj_pow, <- Pos2Z.inj_mul. f_equal.
  revert m. induction d using Pos.peano_ind; intros m.
  - simpl. lia.
  - rewrite Pos.iter_succ, IHd, Pos.pow_succ_r. lia.
Qed.

Lemma shr_1_shifted M n :
  0 <= M -> 0 < n -> shr_1 (shifted M n) = shifted M (n + 1).
Proof.
  intros HM Hn. unfold shifted.
  replace (n + 1 - 1) with n by lia.
  assert (Hdiv : M / 2 ^ (n + 1) = Z.div2 (M / 2 ^ n)).
  { rewrite Z.div2_div, Z.pow_add_r by lia. rewrite Z.div_div by lia. reflexivity. }
  assert (Hbit : Z.testbit M n = Z.odd (M / 2 ^ n)).
  { rewrite Z.testbit_odd, Z.shiftr_div_pow2 by lia. reflexivity. }
  assert (Hst : negb (M mod 2 ^ n =? 0) =
                 Z.testbit M (n - 1) || negb (M mod 2 ^ (n - 1) =? 0)).
  { replace n with ((n - 1) + 1) at 1 by lia.
    rewrite Z.pow_add_r by lia. change (2 ^ 1) with 2.
    rewrite Z.rem_mul_r by lia.
    rewrite Z.testbit_odd, Z.shiftr_div_pow2 by lia.
    rewrite (Zmod_odd (M / 2 ^ (n - 1))).
    pose proof (Z.mod_pos_bound M (2 ^ (n - 1)) ltac:(lia)).
    assert (0 < 2 ^ (n - 1)) by lia.
    destruct (Z.odd (M / 2 ^ (n - 1)));
      destruct (Z.eqb_spec (M mod 2 ^ (n - 1)) 0) as [E|E];
      match goal with |- context [?x =? 0] => destruct (Z.eqb_spec x 0) end;
      simpl; try reflexivity; lia. }
  rewrite Hdiv, Hbit, Hst.
  assert (0 <= M / 2 ^ n) by (apply Z.div_pos; lia).
  destruct (M / 2 ^ n) as [|p|p] eqn:E; [reflexivity| |lia].
  destruct p; simpl; reflexivity.
Qed.

Lemma shr_1_first M :
  0 <= M -> shr_1 (Build_shr_record M false false) = shifted M 1.
Proof.
  intros HM. unfold shifted. simpl Z.sub.
  rewrite Z.pow_0_r, Z.mod_1_r. simpl negb.
  change (2 ^ 1) with 2. rewrite <- Z.div2_div, Z.bit0_odd.
  destruct M as [|p|p]; [reflexivity| |lia].
  destruct p; reflexivity.
Qed.

Lemma shr_iter M p :
  0 <= M ->
  SpecFloat.iter_pos shr_1 p (Build_shr_record M false false) = shifted M (Zpos p).
Proof.
  intros HM. rewrite iter_pos_iter.
  induction p using Pos.peano_ind.
  - simpl. apply shr_1_first, HM.
  - rewrite Pos.iter_succ, IHp, shr_1_shifted by lia.
    f_equal. lia.
Qed.

Lemma rne_exact M k : 0 < k -> M mod 2 ^ k = 0 -> rne M k = M / 2 ^ k.
Proof.
  intros Hk Hmod. unfold rne, shifted.
  assert (Hlow : M mod 2 ^ (k - 1) = 0).
  { replace k with ((k - 1) + 1) in Hmod by lia.
    rewrite Z.pow_add_r in Hmod by lia. change (2 ^ 1) with 2 in Hmod.
    rewrite Z.rem_mul_r in Hmod by lia.
    pose proof (Z.mod_pos_bound M (2 ^ (k - 1)) ltac:(lia)).
    pose proof (Z.mod_pos_bound (M / 2 ^ (k - 1)) 2 ltac:(lia)). nia. }
  assert (Hbit : Z.testbit M (k - 1) = false).
  { rewrite Z.testbit_odd, Z.shiftr_div_pow2 by lia.
    replace k with ((k - 1) + 1) in Hmod by lia.
    rewrite Z.pow_add_r in Hmod by lia. change (2 ^ 1) with 2 in Hmod.
    rewrite Z.rem_mul_r in Hmod by lia.
    rewrite (Zmod_odd (M / 2 ^ (k - 1))) in Hmod.
    assert (0 < 2 ^ (k - 1)) by lia.
    destruct (Z.odd (M / 2 ^ (k - 1))); [lia | reflexivity]. }
  rewrite Hbit, Hlow. reflexivity.
Qed.

Lemma rne_bounds M k :
  0 < k ->
  rne M k = M / 2 ^ k \/ (rne M k = M / 2 ^ k + 1 /\ M mod 2 ^ k <> 0).
Proof.
  intros Hk.
  destruct (Z.eq_dec (M mod 2 ^ k) 0) as [E|E].
  - left. apply rne_exact; assumption.
  - unfold rne, shifted, round_nearest_even, loc_of_shr_record.
    destruct (Z.testbit M (k - 1)), (negb (M mod 2 ^ (k - 1) =? 0));
      try destruct (Z.even (M / 2 ^ k)); auto.
Qed.

Lemma fexp_normal d : Js.prec + emin Js.prec Js.emax <= d ->
  fexp Js.prec Js.emax d = d - 53.
Proof. unfold fexp, emin, Js.prec, Js.emax. lia. Qed.

Lemma shr_fexp_exact M e :
  0 < M -> -1074 <= e + dg M - 53 ->
  shr_fexp Js.prec Js.emax M e loc_Exact =
    if dg M - 53 <=? 0 then (Build_shr_record M false false, e)
    else (shifted M (dg M - 53), e + (dg M - 53)).
Proof.
  intros HM He. unfold shr_fexp.
  destruct M as [|p|p]; try lia.
  simpl Zdigits2. rewrite Zdigits2_dg.
  rewrite fexp_normal by (unfold emin, Js.prec, Js.emax; lia).
  replace (dg (Z.pos p) + e - 53 - e) with (dg (Z.pos p) - 53) by lia.
  simpl shr_record_of_loc. unfold shr.
  destruct (dg (Z.pos p) - 53) as [|k|k] eqn:Ek; simpl Z.leb; cbv iota.
  - reflexivity.
  - rewrite shr_iter by lia. reflexivity.
  - reflexivity.
Qed.

Lemma rne_range M k :
  0 < M -> 0 < k -> dg M = 53 + k -> 2 ^ 52 <= rne M k <= 2 ^ 53.
Proof.
  intros HM Hk Hd.
  pose proof (dg_bounds M HM) as [Hlo Hhi]. rewrite Hd in Hlo, Hhi.
  assert (2 ^ 52 <= M / 2 ^ k < 2 ^ 53).
  { split.
    - apply Z.div_le_lower_bound; [lia|].
      replace (53 + k - 1) with (k + 52) in Hlo by lia.
      rewrite Z.pow_add_r in Hlo by lia. lia.
    - apply Z.div_lt_upper_bound; [lia|].
      rewrite Z.pow_add_r in Hhi by lia. lia. }
  destruct (rne_bounds M k Hk) as [->|[-> _]]; lia.
Qed.

Lemma binary_round_aux_spec M e :
  0 < M -> -1000 <= e -> e + dg M <= 900 ->
  binary_round_aux Js.prec Js.emax false M e loc_Exact =
    F (Z.to_pos (fst (round53 M e))) (snd (round53 M e)).
Proof.
  intros HM Hlo Hhi. pose proof (dg_pos M HM) as Hd.
  unfold binary_round_aux, round53.
  rewrite shr_fexp_exact by lia.
  destruct (Z.leb_spec (dg M - 53) 0) as [Hk|Hk].
  - cbn [shr_m loc_of_shr_record round_nearest_even].
    rewrite shr_fexp_exact by lia.
    destruct (Z.leb_spec (dg M - 53) 0); [|lia].
    cbn [fst snd shr_m].
    destruct M; try lia.
    destruct (Z.leb_spec e (Js.emax - Js.prec)) as [_|He];
      [reflexivity | unfold Js.emax, Js.prec in He; lia].
  - cbn [shr_m fst].
    change (shr_m (shifted M (dg M - 53))) with (M / 2 ^ (dg M - 53)).
    fold (rne M (dg M - 53)).
    pose proof (rne_range M (dg M - 53) HM Hk ltac:(lia)) as Hr.
    set (m1 := rne M (dg M - 53)) in *.
    assert (Hm1 : 0 < m1) by lia.
    destruct (Z.eqb_spec m1 (2 ^ 53)) as [E|E].
    + assert (Hd1 : dg m1 = 54) by (rewrite E; reflexivity).
      rewrite shr_fexp_exact by lia. rewrite Hd1.
      change (54 - 53 <=? 0) with false. cbv iota.
      rewrite E.
      replace (shifted (2 ^ 53) (54 - 53))
        with (Build_shr_record (2 ^ 52) false false) by (vm_compute; reflexivity).
      cbn [fst snd shr_m].
      change (2 ^ 52) with (Z.pos (2 ^ 52)%positive).
      cbn [Z.to_pos].
      replace (e + (dg M - 53) + (54 - 53)) with (e + (dg M - 53) + 1) by lia.
      destruct (Z.leb_spec (e + (dg M - 53) + 1) (Js.emax - Js.prec)) as [_|He];
        [reflexivity | unfold Js.emax, Js.prec in He; lia].
    + assert (Hd1 : dg m1 = 53) by (apply dg_unique; [change (53 - 1) with 52|]; lia).
      rewrite shr_fexp_exact by lia. rewrite Hd1.
      change (53 - 53 <=? 0) with true. cbv iota.
      cbn [fst snd shr_m].
      destruct m1; try lia.
      destruct (Z.leb_spec (e + (dg M - 53)) (Js.emax - Js.prec)) as [_|He];
        [reflexivity | unfold Js.emax, Js.prec in He; lia].
Qed.

Lemma canon_mantissa n : 0 < n < 2 ^ 53 ->
  0 < n * 2 ^ (53 - dg n) /\ dg (n * 2 ^ (53 - dg n)) = 53.
Proof.
  intros [Hn Hlt].
  pose proof (dg_le n 53 Hn Hlt). pose proof (dg_pos n Hn).
  split; [ | rewrite dg_shift by lia; lia].
  apply Z.mul_pos_pos; [lia|]. apply Z.pow_pos_nonneg; lia.
Qed.

(** Normalising an exactly representable value. *)
Lemma binary_normalize_exact n j e :
  0 < n < 2 ^ 53 -> 0 <= j -> -900 <= e - j -> e + j <= 800 ->
  binary_normalize Js.prec Js.emax (n * 2 ^ j) (e - j) false = canon n e.
Proof.
  intros [Hn Hlt] Hj Hlo Hhi.
  pose proof (dg_le n 53 Hn Hlt) as Hd. pose proof (dg_pos n Hn) as Hd0.
  assert (HM : 0 < n * 2 ^ j) by (apply Z.mul_pos_pos; [lia | apply Z.pow_pos_nonneg; lia]).
  unfold binary_normalize.
  destruct (n * 2 ^ j) as [|M|M] eqn:EM; try lia.
  unfold binary_round.
  rewrite Zdigits2_dg, <- EM, dg_shift by lia.
  rewrite fexp_normal by (unfold emin, Js.prec, Js.emax; lia).
  unfold shl_align.
  replace (dg n + j + (e - j) - 53 - (e - j)) with (dg n + j - 53) by lia.
  destruct (dg n + j - 53) as [|k|k] eqn:Ek.
  - (* already 53 digits *)
    rewrite binary_round_aux_spec; rewrite <- ?EM, ?dg_shift; try lia.
    unfold round53. rewrite dg_shift by lia.
    destruct (Z.leb_spec (dg n + j - 53) 0); [|lia].
    cbn [fst snd]. unfold canon.
    replace (53 - dg n) with j by lia. f_equal. lia.
  - (* too long: the low bits are zero *)
    rewrite binary_round_aux_spec; rewrite <- ?EM, ?dg_shift; try lia.
    unfold round53. rewrite dg_shift by lia.
    destruct (Z.leb_spec (dg n + j - 53) 0); [lia|].
    assert (Hsplit : n * 2 ^ j = (n * 2 ^ (53 - dg n)) * 2 ^ (dg n + j - 53)).
    { rewrite <- Z.mul_assoc, <- Z.pow_add_r by lia. do 2 f_equal. lia. }
    rewrite rne_exact; [ | lia | rewrite Hsplit; apply Z.mod_mul; lia ].
    rewrite Hsplit, Z.div_mul by lia.
    destruct (canon_mantissa n ltac:(lia)) as [Hc1 Hc2].
    destruct (Z.eqb_spec (n * 2 ^ (53 - dg n)) (2 ^ 53)) as [E|E].
    { rewrite E in Hc2. discriminate Hc2. }
    cbn [fst snd]. unfold canon. f_equal. lia.
  - (* too short: shifted left first *)
    rewrite iter_xO, <- EM.
    assert (Hk : Z.pos k = 53 - dg n - j) by lia.
    rewrite binary_round_aux_spec.
    + unfold round53. rewrite <- Z.mul_assoc, <- Z.pow_add_r by lia.
      rewrite dg_shift by lia.
      destruct (Z.leb_spec (dg n + (j + Z.pos k) - 53) 0); [|lia].
      cbn [fst snd]. unfold canon.
      replace (j + Z.pos k) with (53 - dg n) by lia. f_equal. lia.
    + apply Z.mul_pos_pos; [lia | apply Z.pow_pos_nonneg; lia].
    + lia.
    + rewrite <- Z.mul_assoc, <- Z.pow_add_r by lia.
      rewrite dg_shift by lia. lia.
Qed.

(** ** Lemmas: binary64 operations on exact operands *)

Lemma pow2_pos k : 0 <= k -> 0 < 2 ^ k.
Proof. intros. apply Z.pow_pos_nonneg; lia. Qed.

Lemma canon_exponent_le n : 0 < n < 2 ^ 53 -> 0 <= 53 - dg n.
Proof. intros [Hn Hlt]. pose proof (dg_le n 53 Hn Hlt). lia. Qed.

(** Without a left shift, normalising is rounding. *)
Lemma binary_normalize_long M e :
  0 < M -> 53 <= dg M -> -1000 <= e ->
  binary_normalize Js.prec Js.emax M e false =
  binary_round_aux Js.prec Js.emax false M e loc_Exact.
Proof.
  intros HM Hd He. destruct M as [|p|p]; try lia.
  unfold binary_normalize, binary_round.
  rewrite Zdigits2_dg.
  rewrite fexp_normal by (unfold emin, Js.prec, Js.emax; lia).
  unfold shl_align.
  destruct (dg (Z.pos p) + e - 53 - e) eqn:E; try reflexivity. lia.
Qed.

Lemma shl_align_value m e ez :
  ez <= e -> Zpos (fst (shl_align m e ez)) = Zpos m * 2 ^ (e - ez).
Proof.
  intros H. unfold shl_align.
  destruct (ez - e) as [|d|d] eqn:E; cbn [fst].
  - replace (e - ez) with 0 by lia. lia.
  - lia.
  - rewrite iter_xO. do 2 f_equal. lia.
Qed.

Lemma canon_value n e : 0 < n < 2 ^ 53 ->
  canon n e = F (Z.to_pos (n * 2 ^ (53 - dg n))) (e + dg n - 53) /\
  Zpos (Z.to_pos (n * 2 ^ (53 - dg n))) = n * 2 ^ (53 - dg n).
Proof.
  intros H. split; [reflexivity|].
  destruct (canon_mantissa n H) as [Hp _]. lia.
Qed.

Lemma of_Z_dyadic n : 0 <= n < 2 ^ 53 -> Js.of_Z n = dyadic n 0.
Proof.
  intros [Hn Hlt]. unfold dyadic, Js.of_Z.
  destruct (Z.eqb_spec n 0) as [->|Hnz]; [reflexivity|].
  rewrite <- (binary_normalize_exact n 0 0) by lia.
  f_equal. lia.
Qed.

Lemma mul_dyadic a ea b eb :
  0 <= a -> 0 <= b -> a * b < 2 ^ 53 ->
  -300 <= ea <= 300 -> -300 <= eb <= 300 ->
  Js.mul (dyadic a ea) (dyadic b eb) = dyadic (a * b) (ea + eb).
Proof.
  intros Ha Hb Hab Hea Heb. unfold dyadic.
  destruct (Z.eqb_spec a 0) as [->|Haz];
    [ simpl; destruct (b =? 0); reflexivity |].
  destruct (Z.eqb_spec b 0) as [->|Hbz];
    [ rewrite Z.mul_0_r; reflexivity |].
  destruct (Z.eqb_spec (a * b) 0) as [E|_]; [nia|].
  assert (Ha53 : 0 < a < 2 ^ 53) by nia.
  assert (Hb53 : 0 < b < 2 ^ 53) by nia.
  destruct (canon_value a ea Ha53) as [-> Hma].
  destruct (canon_value b eb Hb53) as [-> Hmb].
  pose proof (canon_exponent_le a Ha53) as Hda.
  pose proof (canon_exponent_le b Hb53) as Hdb.
  pose proof (dg_pos a ltac:(lia)). pose proof (dg_pos b ltac:(lia)).
  unfold Js.mul, SFmul. cbn [xorb].
  rewrite Pos2Z.inj_mul, Hma, Hmb.
  assert (Hprod : a * 2 ^ (53 - dg a) * (b * 2 ^ (53 - dg b)) =
                  (a * b) * 2 ^ (106 - dg a - dg b)).
  { replace (106 - dg a - dg b) with ((53 - dg a) + (53 - dg b)) by lia.
    rewrite Z.pow_add_r by lia. ring. }
  rewrite Hprod.
  rewrite <- binary_normalize_long.
  - replace (ea + dg a - 53 + (eb + dg b - 53))
      with ((ea + eb) - (106 - dg a - dg b)) by lia.
    apply binary_normalize_exact; lia.
  - apply Z.mul_pos_pos; [nia | apply pow2_pos; lia].
  - rewrite dg_shift by (nia || lia).
    assert (dg a + dg b - 1 <= dg (a * b)); [|lia].
    unfold dg. pose proof (Z.log2_mul_below a b ltac:(lia) ltac:(lia)). lia.
  - lia.
Qed.

(** The sum of two positive canonical numbers, before rounding. *)
Lemma add_canon a ea b eb :
  0 < a < 2 ^ 53 -> 0 < b < 2 ^ 53 ->
  let ez := Z.min (ea + dg a - 53) (eb + dg b - 53) in
  Js.add (canon a ea) (canon b eb) =
  binary_normalize Js.prec Js.emax
    (a * 2 ^ (ea - ez) + b * 2 ^ (eb - ez)) ez false.
Proof.
  intros Ha Hb ez.
  destruct (canon_value a ea Ha) as [-> Hma].
  destruct (canon_value b eb Hb) as [-> Hmb].
  pose proof (canon_exponent_le a Ha) as Hda.
  pose proof (canon_exponent_le b Hb) as Hdb.
  unfold Js.add, SFadd. cbn [cond_Zopp]. fold ez.
  rewrite !shl_align_value by lia.
  rewrite Hma, Hmb.
  rewrite <- !Z.mul_assoc, <- !Z.pow_add_r by lia.
  do 2 f_equal; f_equal; f_equal; lia.
Qed.

Lemma add_dyadic a b e :
  0 <= a -> 0 <= b -> a + b < 2 ^ 53 -> -300 <= e <= 300 ->
  Js.add (dyadic a e) (dyadic b e) = dyadic (a + b) e.
Proof.
  intros Ha Hb Hab He. unfold dyadic.
  destruct (Z.eqb_spec a 0) as [->|Haz];
    [ rewrite Z.add_0_l; destruct (b =? 0); reflexivity |].
  destruct (Z.eqb_spec b 0) as [->|Hbz];
    [ rewrite Z.add_0_r; destruct (Z.eqb_spec a 0); [lia | reflexivity] |].
  destruct (Z.eqb_spec (a + b) 0) as [E|_]; [lia|].
  assert (Ha53 : 0 < a < 2 ^ 53) by lia.
  assert (Hb53 : 0 < b < 2 ^ 53) by lia.
  pose proof (canon_exponent_le a Ha53) as Hda.
  pose proof (canon_exponent_le b Hb53) as Hdb.
  pose proof (dg_pos a ltac:(lia)). pose proof (dg_pos b ltac:(lia)).
  rewrite add_canon by assumption.
  set (ez := Z.min (e + dg a - 53) (e + dg b - 53)).
  rewrite <- Z.mul_add_distr_r.
  replace ez with (e - (e - ez)) at 2 by lia.
  apply binary_normalize_exact; lia.
Qed.

Lemma div_eucl_pair a b : Z.div_eucl a b = (a / b, a mod b).
Proof. unfold Z.div, Z.modulo. destruct (Z.div_eucl a b); reflexivity. Qed.

Lemma of_Z_2_32 : Js.of_Z 4294967296 = F 4503599627370496 (-20).
Proof. vm_compute. reflexivity. Qed.

Lemma div_dyadic_2_32 a e :
  0 <= a < 2 ^ 53 -> -300 <= e <= 300 ->
  Js.div (dyadic a e) (Js.of_Z 4294967296) = dyadic a (e - 32).
Proof.
  intros [Ha Hlt] He. rewrite of_Z_2_32. unfold dyadic.
  destruct (Z.eqb_spec a 0) as [->|Haz]; [reflexivity|].
  assert (Ha53 : 0 < a < 2 ^ 53) by lia.
  destruct (canon_value a e Ha53) as [-> Hma].
  destruct (canon_mantissa a Ha53) as [Hm0 Hmd].
  pose proof (canon_exponent_le a Ha53) as Hda.
  pose proof (dg_pos a ltac:(lia)) as Hd0.
  unfold canon.
  set (m := Z.to_pos (a * 2 ^ (53 - dg a))) in *.
  rewrite <- Hma in Hmd.
  unfold Js.div, SFdiv, SFdiv_core_binary. cbn [xorb].
  cbn [Zdigits2]. rewrite Zdigits2_dg, Hmd.
  change (Z.pos (digits2_pos 4503599627370496)) with 53.
  rewrite fexp_normal by (unfold emin, Js.prec, Js.emax; lia).
  replace (Z.min (53 + (e + dg a - 53) - (53 + -20) - 53) (e + dg a - 53 - -20))
    with (e + dg a - 53 - 33) by lia.
  replace (e + dg a - 53 - -20 - (e + dg a - 53 - 33)) with 53 by lia.
  rewrite Z.shiftl_mul_pow2 by lia.
  rewrite div_eucl_pair.
  replace (Z.pos m * 2 ^ 53) with ((Z.pos m * 2) * 4503599627370496)
    by (change 4503599627370496 with (2 ^ 52); change (2 ^ 53) with (2 ^ 52 * 2); ring).
  rewrite Z.div_mul, Z.mod_mul by lia.
  change (new_location 4503599627370496 0) with loc_Exact.
  assert (Hd2 : dg (Z.pos m * 2) = 54).
  { change 2 with (2 ^ 1) at 1. rewrite dg_shift by lia. lia. }
  rewrite binary_round_aux_spec by lia.
  unfold round53. rewrite Hd2. change (54 - 53 <=? 0) with false. cbv iota.
  rewrite rne_exact;
    [ | lia | change (2 ^ (54 - 53)) with 2; apply Z.mod_mul; lia ].
  change (2 ^ (54 - 53)) with 2. rewrite Z.div_mul by lia.
  destruct (Z.eqb_spec (Z.pos m) (2 ^ 53)) as [E|_].
  { rewrite E in Hmd. discriminate Hmd. }
  cbn [fst snd Z.to_pos]. f_equal. lia.
Qed.

Lemma trunc_finite_neg m e :
  e < 0 -> Js.trunc (F m e) = Some (Z.pos m / 2 ^ (- e)).
Proof. intros He. destruct e; try lia. reflexivity. Qed.

Lemma trunc_dyadic n e :
  0 <= n < 2 ^ 53 -> e <= 0 -> Js.trunc (dyadic n e) = Some (n / 2 ^ (- e)).
Proof.
  intros [Hn Hlt] He. unfold dyadic.
  destruct (Z.eqb_spec n 0) as [->|Hnz].
  { rewrite Z.div_0_l; [reflexivity | pose proof (pow2_pos (- e)); lia]. }
  assert (Hn53 : 0 < n < 2 ^ 53) by lia.
  destruct (canon_value n e Hn53) as [-> Hm].
  pose proof (canon_exponent_le n Hn53) as Hd.
  destruct (Z.eq_dec (e + dg n - 53) 0) as [E0|E0].
  - rewrite E0. cbn [Js.trunc]. rewrite Hm.
    replace (53 - dg n) with 0 by lia. replace (- e) with 0 by lia.
    rewrite Z.pow_0_r, Z.mul_1_r, Z.div_1_r. reflexivity.
  - rewrite trunc_finite_neg by lia. rewrite Hm. f_equal.
    replace (- (e + dg n - 53)) with (- e + (53 - dg n)) by lia.
    rewrite Z.pow_add_r by lia.
    rewrite Z.div_mul_cancel_r; [reflexivity | | ];
      pose proof (pow2_pos (- e)); pose proof (pow2_pos (53 - dg n)); lia.
Qed.

(** The integer part of [a + b / 2^32], computed in binary64: the sum is
    rounded to 53 bits, which may carry into the next integer. *)
Lemma trunc_add_ms a b :
  0 <= a < 2 ^ 43 -> 0 <= b < 2 ^ 43 ->
  exists t, Js.trunc (Js.add (dyadic a 0) (dyadic b (-32))) = Some t /\
            a + b / 2 ^ 32 <= t <= a + b / 2 ^ 32 + 1.
Proof.
  intros [Ha Halt] [Hb Hblt].
  assert (H43 : 2 ^ 43 < 2 ^ 53) by (apply Z.pow_lt_mono_r; lia).
  assert (Hb32 : 0 <= b / 2 ^ 32) by (apply Z.div_pos; lia).
  destruct (Z.eq_dec a 0) as [->|Haz].
  { exists (b / 2 ^ 32). split; [|lia].
    replace (Js.add (dyadic 0 0) (dyadic b (-32))) with (dyadic b (-32)).
    - rewrite trunc_dyadic by lia. reflexivity.
    - unfold dyadic. simpl (0 =? 0). cbv iota.
      destruct (b =? 0); reflexivity. }
  destruct (Z.eq_dec b 0) as [->|Hbz].
  { exists a. split; [|rewrite Z.div_0_l by lia; lia].
    replace (Js.add (dyadic a 0) (dyadic 0 (-32))) with (dyadic a 0).
    - rewrite trunc_dyadic by lia. simpl (- 0). rewrite Z.pow_0_r, Z.div_1_r. reflexivity.
    - unfold dyadic. destruct (Z.eqb_spec a 0); [lia|]. reflexivity. }
  assert (Ha53 : 0 < a < 2 ^ 53) by lia.
  assert (Hb53 : 0 < b < 2 ^ 53) by lia.
  pose proof (canon_exponent_le a Ha53) as Hda.
  pose proof (canon_exponent_le b Hb53) as Hdb.
  pose proof (dg_pos a ltac:(lia)) as Hda0.
  pose proof (dg_pos b ltac:(lia)) as Hdb0.
  unfold dyadic.
  destruct (Z.eqb_spec a 0); [lia|]. destruct (Z.eqb_spec b 0); [lia|].
  rewrite add_canon by assumption.
  set (ez := Z.min (0 + dg a - 53) (-32 + dg b - 53)).
  set (j := - 32 - ez).
  set (N := a * 2 ^ 32 + b).
  assert (Hj : 0 <= j) by (unfold j, ez; lia).
  assert (HN0 : 0 < N) by (unfold N; lia).
  assert (HS : a * 2 ^ (0 - ez) + b * 2 ^ j = N * 2 ^ j).
  { unfold N. rewrite Z.mul_add_distr_r, <- Z.mul_assoc, <- Z.pow_add_r by lia.
    do 3 f_equal; unfold j; lia. }
  rewrite HS. replace ez with (- 32 - j) by (unfold j; lia).
  assert (HNdiv : N / 2 ^ 32 = a + b / 2 ^ 32).
  { unfold N. rewrite Z.add_comm, Z.div_add by lia. lia. }
  assert (HNlt : N < 2 ^ 76).
  { unfold N. change (2 ^ 76) with (2 ^ 43 * 2 ^ 32 + 2 ^ 43 * 2 ^ 32). nia. }
  pose proof (dg_le N 76 HN0 HNlt) as HdN.
  pose proof (dg_pos N HN0) as HdN0.
  destruct (Z_lt_le_dec N (2 ^ 53)) as [Hsmall|Hbig].
  - (* the sum is representable *)
    rewrite binary_normalize_exact by lia.
    exists (N / 2 ^ 32). split; [|lia].
    pose proof (trunc_dyadic N (-32) ltac:(lia) ltac:(lia)) as Ht.
    unfold dyadic in Ht. destruct (Z.eqb_spec N 0); [lia|]. exact Ht.
  - (* the sum is rounded *)
    assert (HdN53 : 54 <= dg N).
    { destruct (Z_lt_le_dec (dg N) 54); [|lia].
      pose proof (dg_bounds N HN0) as [_ Hu].
      assert (2 ^ dg N <= 2 ^ 53) by (apply Z.pow_le_mono_r; lia). lia. }
    assert (HSpos : 0 < N * 2 ^ j) by (apply Z.mul_pos_pos; [lia | apply pow2_pos; lia]).
    assert (HdS : dg (N * 2 ^ j) = dg N + j) by (apply dg_shift; lia).
    rewrite binary_normalize_long by lia.
    rewrite binary_round_aux_spec by lia.
    unfold round53. rewrite HdS.
    destruct (Z.leb_spec (dg N + j - 53) 0) as [|Hk]; [lia|].
    set (k := dg N + j - 53) in *.
    set (P := 2 ^ (85 - dg N)).
    assert (HP : 0 < P) by (apply pow2_pos; lia).
    assert (Hq : (N * 2 ^ j / 2 ^ k) / P = N / 2 ^ 32).
    { unfold P. rewrite Z.div_div by (pose proof (pow2_pos k); lia).
      rewrite <- Z.pow_add_r by lia.
      replace (k + (85 - dg N)) with (32 + j) by (unfold k; lia).
      rewrite Z.pow_add_r by lia.
      rewrite Z.div_mul_cancel_r; [reflexivity | lia | pose proof (pow2_pos j); lia]. }
    pose proof (rne_range (N * 2 ^ j) k HSpos Hk ltac:(unfold k; lia)) as Hr.
    assert (Hm1 : (rne (N * 2 ^ j) k) / P = N / 2 ^ 32 \/
                  (rne (N * 2 ^ j) k) / P <= N / 2 ^ 32 + 1 /\
                  N / 2 ^ 32 <= (rne (N * 2 ^ j) k) / P).
    { destruct (rne_bounds (N * 2 ^ j) k Hk) as [->|[-> _]]; [left; exact Hq|right].
      rewrite <- Hq. split.
      - apply Z.div_le_upper_bound; [lia|].
        pose proof (Z.mul_div_le (N * 2 ^ j / 2 ^ k) P HP).
        pose proof (Z.mod_pos_bound (N * 2 ^ j / 2 ^ k) P HP).
        pose proof (Z.div_mod (N * 2 ^ j / 2 ^ k) P ltac:(lia)). nia.
      - apply Z.div_le_mono; lia. }
    set (m1 := rne (N * 2 ^ j) k) in *.
    exists (m1 / P). split; [|lia].
    destruct (Z.eqb_spec m1 (2 ^ 53)) as [E|E]; cbn [fst snd].
    + change (Z.to_pos (2 ^ 52)) with (2 ^ 52)%positive.
      rewrite trunc_finite_neg by (unfold k; lia). f_equal.
      rewrite E. unfold P.
      replace (85 - dg N) with ((- (-32 - j + k + 1)) + 1) by (unfold k; lia).
      rewrite (Z.pow_add_r 2 _ 1) by (unfold k; lia).
      change (2 ^ 53) with (2 ^ 52 * 2 ^ 1).
      rewrite Z.div_mul_cancel_r;
        [reflexivity | pose proof (pow2_pos (- (-32 - j + k + 1))); unfold k in *; lia | lia].
    + rewrite trunc_finite_neg by (unfold k; lia).
      rewrite Z2Pos.id by lia. do 2 f_equal. unfold P, k. f_equal. lia.
Qed.

(** ** Lemmas: the decoder *)

(** The accumulation read as a big-endian 32-bit integer. *)
Lemma spec_intpart_big_endian msg :
  spec_intpart msg =
    byte_at msg 40 * 2 ^ 24 + byte_at msg 41 * 2 ^ 16
    + byte_at msg 42 * 2 ^ 8 + byte_at msg 43.
Proof.
  unfold spec_intpart, spec_accumulate, offsetTransmitTime.
  cbn [fold_left Nat.add]. change (2 ^ 24) with 16777216.
  change (2 ^ 16) with 65536. change (2 ^ 8) with 256. lia.
Qed.

Lemma spec_fractpart_big_endian msg :
  spec_fractpart msg =
    byte_at msg 44 * 2 ^ 24 + byte_at msg 45 * 2 ^ 16
    + byte_at msg 46 * 2 ^ 8 + byte_at msg 47.
Proof.
  unfold spec_fractpart, spec_accumulate, offsetTransmitTime.
  cbn [fold_left Nat.add]. change (2 ^ 24) with 16777216.
  change (2 ^ 16) with 65536. change (2 ^ 8) with 256. lia.
Qed.

(** Time values of three well-known instants. *)
Example time_values :
  Date.UTC_Jan_01 1900 = -2208988800000 /\
  Date.UTC_Jan_01 1970 = 0 /\
  Date.UTC_Jan_01 2000 = 946684800000.
Proof. repeat split; reflexivity. Qed.

Lemma byte_to_Z_range b : 0 <= byte_to_Z b < 256.
Proof. unfold byte_to_Z. pose proof (Byte.to_N_bounded b). lia. Qed.

Lemma byte_at_range msg i : 0 <= byte_at msg i < 256.
Proof. unfold byte_at. destruct (msg !! i); [apply byte_to_Z_range | lia]. Qed.

Lemma accumulate_exact msg acc i :
  (offsetTransmitTime + i < length msg)%nat -> 0 <= acc < 2 ^ 40 ->
  accumulate msg (dyadic acc 0) i = dyadic (spec_accumulate msg acc i) 0.
Proof.
  intros Hi Hacc.
  destruct (lookup_lt_is_Some_2 msg _ Hi) as [b Hb].
  pose proof (byte_to_Z_range b) as Hbr.
  assert (H40 : 2 ^ 40 * 256 + 256 <= 2 ^ 53) by (vm_compute; discriminate).
  unfold accumulate, spec_accumulate, byte_at, Buffer_get. rewrite Hb.
  cbn [Js.ToNumber].
  rewrite (of_Z_dyadic 256) by (split; [lia | reflexivity]).
  rewrite (of_Z_dyadic (byte_to_Z b)) by lia.
  rewrite mul_dyadic by lia. cbn [Z.add].
  rewrite add_dyadic by lia.
  f_equal. lia.
Qed.

Lemma fold_accumulate_exact msg idx acc :
  Forall (fun i => (offsetTransmitTime + i < length msg)%nat) idx ->
  (length idx <= 4)%nat -> 0 <= acc < 256 ^ (4 - Z.of_nat (length idx)) ->
  fold_left (accumulate msg) idx (dyadic acc 0) =
    dyadic (fold_left (spec_accumulate msg) idx acc) 0 /\
  0 <= fold_left (spec_accumulate msg) idx acc < 256 ^ 4.
Proof.
  revert acc. induction idx as [|i idx IH]; intros acc Hall Hlen Hacc.
  - cbn in *. split; [reflexivity | lia].
  - inversion Hall as [|? ? Hi Hrest]; subst. cbn [fold_left length] in *.
    assert (Hpow : 256 ^ (4 - Z.of_nat (length idx)) =
                   256 * 256 ^ (4 - Z.of_nat (S (length idx)))).
    { rewrite <- Z.pow_succ_r by lia. f_equal. lia. }
    assert (Hle : 256 ^ (4 - Z.of_nat (S (length idx))) <= 256 ^ 3)
      by (apply Z.pow_le_mono_r; lia).
    rewrite accumulate_exact; [ | exact Hi | change (2 ^ 40) with (256 * 256 ^ 3 * 256); nia].
    apply IH; [exact Hrest | lia |].
    unfold spec_accumulate. pose proof (byte_at_range msg (offsetTransmitTime + i)).
    rewrite Hpow. nia.
Qed.

Lemma decode_parts msg :
  (48 <= length msg)%nat ->
  decode_intpart msg = Js.of_Z (spec_intpart msg) /\
  decode_fractpart msg = Js.of_Z (spec_fractpart msg) /\
  0 <= spec_intpart msg < 2 ^ 32 /\ 0 <= spec_fractpart msg < 2 ^ 32.
Proof.
  intros Hlen.
  assert (H32 : 2 ^ 32 < 2 ^ 53) by reflexivity.
  destruct (fold_accumulate_exact msg [0; 1; 2; 3]%nat 0) as [Hi Hib].
  { repeat constructor; unfold offsetTransmitTime; lia. }
  { cbn; lia. } { cbn; lia. }
  destruct (fold_accumulate_exact msg [4; 5; 6; 7]%nat 0) as [Hf Hfb].
  { repeat constructor; unfold offsetTransmitTime; lia. }
  { cbn; lia. } { cbn; lia. }
  change (256 ^ 4) with (2 ^ 32) in Hib, Hfb.
  fold (spec_intpart msg) in Hi, Hib. fold (spec_fractpart msg) in Hf, Hfb.
  change (dyadic 0 0) with (S754_zero false) in Hi, Hf.
  fold (decode_intpart msg) in Hi. fold (decode_fractpart msg) in Hf.
  rewrite !of_Z_dyadic by lia. auto.
Qed.

Lemma decode_milliseconds_sum msg :
  (48 <= length msg)%nat ->
  decode_milliseconds msg =
    Js.add (dyadic (spec_intpart msg * 1000) 0)
           (dyadic (spec_fractpart msg * 1000) (-32)).
Proof.
  intros Hlen. destruct (decode_parts msg Hlen) as (Hi & Hf & Hib & Hfb).
  assert (H32 : 2 ^ 32 * 1000 < 2 ^ 53) by reflexivity.
  unfold decode_milliseconds. rewrite Hi, Hf.
  rewrite (of_Z_dyadic (spec_intpart msg)), (of_Z_dyadic (spec_fractpart msg)) by lia.
  rewrite (of_Z_dyadic 1000) by (split; [lia | reflexivity]).
  rewrite !mul_dyadic by lia.
  rewrite div_dyadic_2_32 by lia.
  reflexivity.
Qed.

Lemma trunc_add_zero_l x :
  Js.trunc (Js.add (S754_zero false) x) = Js.trunc x.
Proof. destruct x as [[|]| | |]; reflexivity. Qed.

Lemma decode_date_of_ms msg t :
  Js.trunc (decode_milliseconds msg) = Some t ->
  0 <= t < 2 ^ 44 ->
  decode_date msg = Some (Date.UTC_Jan_01 1900 + t).
Proof.
  intros Ht Hr. unfold decode_date.
  change (Date.getUTCMilliseconds Date.parse_Jan_01_1900_GMT) with (S754_zero false).
  unfold Date.setUTCMilliseconds, Date.parse_Jan_01_1900_GMT, Date.MakeTime.
  rewrite trunc_add_zero_l, Ht.
  change (Date.HourFromTime (Date.UTC_Jan_01 1900)) with 0.
  change (Date.MinFromTime (Date.UTC_Jan_01 1900)) with 0.
  change (Date.SecFromTime (Date.UTC_Jan_01 1900)) with 0.
  change (Date.Day (Date.UTC_Jan_01 1900)) with (-25567).
  change (Date.UTC_Jan_01 1900) with (-2208988800000).
  unfold Date.MakeDate, Date.TimeClip, Date.msPerDay, Date.msPerHour,
    Date.msPerMinute, Date.msPerSecond.
  assert (H44 : 2 ^ 44 = 17592186044416) by reflexivity.
  match goal with |- context [?a <=? ?b] => destruct (Z.leb_spec a b) end;
    [f_equal; lia | lia].
Qed.

Lemma decode_date_bounds msg :
  (48 <= length msg)%nat ->
  exists t,
    decode_date msg = Some (Date.UTC_Jan_01 1900 + t) /\
    spec_intpart msg * 1000 + spec_fractpart msg * 1000 / 2 ^ 32 <= t /\
    t <= spec_intpart msg * 1000 + spec_fractpart msg * 1000 / 2 ^ 32 + 1.
Proof.
  intros Hlen. destruct (decode_parts msg Hlen) as (_ & _ & Hib & Hfb).
  assert (H43 : 2 ^ 32 * 1000 < 2 ^ 43) by reflexivity.
  destruct (trunc_add_ms (spec_intpart msg * 1000) (spec_fractpart msg * 1000))
    as (t & Ht & Hlo & Hhi); [lia | lia |].
  rewrite <- decode_milliseconds_sum in Ht by assumption.
  exists t. split; [|lia].
  assert (Hdiv : 0 <= spec_fractpart msg * 1000 / 2 ^ 32 < 1000).
  { split; [apply Z.div_pos; lia | apply Z.div_lt_upper_bound; lia]. }
  apply decode_date_of_ms; [exact Ht | ].
  assert (2 ^ 32 * 1000 + 1001 < 2 ^ 44) by reflexivity. lia.
Qed.

(** ** Lemmas: the event loop *)

Lemma request_packet_bytes junk : request_packet junk = request.
Proof. vm_compute. reflexivity. Qed.

Lemma valid_callback cb : Js.typeof cb = "function" ->
  Js.is_null cb || negb (String.eqb (Js.typeof cb) "function") = false.
Proof. destruct cb; simpl; congruence. Qed.

Lemma start_valid server port cb junk :
  Js.typeof cb = "function" ->
  start server port cb junk =
    mkQuery false true true true false true
      [CreateSocket "udp4"; SetTimeout ntpReplyTimeout; OnError;
       Send request (Js.default_param port defaultNtpPort)
                    (Js.default_param server defaultNtpServer)].
Proof.
  intros Hcb. unfold start, getNetworkTime.
  rewrite (valid_callback cb Hcb), request_packet_bytes.
  reflexivity.
Qed.

Lemma Inv_start server port cb junk :
  Js.typeof cb = "function" -> Inv (start server port cb junk).
Proof.
  intros Hcb. rewrite start_valid by assumption.
  repeat split; intros; discriminate.
Qed.

Lemma Inv_step q ev : Inv q -> Inv (step q ev).
Proof.
  destruct q as [ef so tp el ml sp tr]. unfold Inv. cbn.
  intros (Hel & Htp & Hsp). subst el.
  destruct ev as [|err|err|msg]; unfold_step; cbn.
  - destruct tp; cbn; [|tauto].
    destruct (Htp eq_refl) as [-> _]. cbn. intuition congruence.
  - destruct ef; cbn; [tauto|]. intuition congruence.
  - destruct sp; cbn; [|tauto].
    destruct (Js.ToBoolean err); cbn.
    + destruct ef; cbn; [intuition congruence|].
      destruct so; cbn; intuition congruence.
    + split; [reflexivity|]. split; [|intros; reflexivity || auto].
      intros H. destruct (Htp H) as [-> Hc]. split; [reflexivity|].
      revert Hc. unfold_obs. rewrite app_nil_r. auto.
  - destruct ml, so; cbn; try tauto.
    intuition congruence.
Qed.

Lemma Inv_steps evs q : Inv q -> Inv (fold_left step evs q).
Proof.
  revert q. induction evs as [|ev evs IH]; intros q Hq; cbn; [exact Hq|].
  apply IH, Inv_step, Hq.
Qed.

Lemma Inv_run server port cb junk evs :
  Js.typeof cb = "function" -> Inv (run server port cb junk evs).
Proof. intros Hcb. apply Inv_steps, Inv_start, Hcb. Qed.

(** No handler sends a datagram or arms a timer. *)
Lemma step_datagrams q ev :
  datagrams (step q ev) = datagrams q /\ timers (step q ev) = timers q.
Proof.
  destruct q as [ef so tp el ml sp tr].
  destruct ev as [|err|err|msg]; unfold_step; cbn.
  - destruct tp, so; cbn; unfold datagrams, timers; cbn [trace];
      rewrite ?List.filter_app; cbn; rewrite ?app_nil_r; auto.
  - destruct el, ef; cbn; unfold datagrams, timers; cbn [trace];
      rewrite ?List.filter_app; cbn; rewrite ?app_nil_r; auto.
  - destruct sp, (Js.ToBoolean err), ef, so; cbn; unfold datagrams, timers; cbn [trace];
      rewrite ?List.filter_app; cbn; rewrite ?app_nil_r; auto.
  - destruct ml, so; cbn; unfold datagrams, timers; cbn [trace];
      rewrite ?List.filter_app; cbn; rewrite ?app_nil_r; auto.
Qed.

Lemma steps_datagrams evs q :
  datagrams (fold_left step evs q) = datagrams q /\
  timers (fold_left step evs q) = timers q.
Proof.
  revert q. induction evs as [|ev evs IH]; intros q; cbn; [auto|].
  destruct (IH (step q ev)) as [-> ->]. apply step_datagrams.
Qed.

(** A closed socket stays closed and delivers no date. *)
Lemma step_closed q ev :
  socketOpen q = false ->
  socketOpen (step q ev) = false /\ successes (step q ev) = successes q.
Proof.
  destruct q as [ef so tp el ml sp tr]. cbn. intros ->.
  destruct ev as [|err|err|msg]; unfold_step; cbn.
  - destruct tp; cbn; unfold successes; cbn [trace];
      rewrite ?List.filter_app; cbn; rewrite ?app_nil_r; auto.
  - destruct el, ef; cbn; unfold successes; cbn [trace];
      rewrite ?List.filter_app; cbn; rewrite ?app_nil_r; auto.
  - destruct sp, (Js.ToBoolean err), ef; cbn; unfold successes; cbn [trace];
      rewrite ?List.filter_app; cbn; rewrite ?app_nil_r; auto.
  - destruct ml; cbn; auto.
Qed.

Lemma steps_closed evs q :
  socketOpen q = false -> successes (fold_left step evs q) = successes q.
Proof.
  revert q. induction evs as [|ev evs IH]; intros q Hq; cbn; [reflexivity|].
  destruct (step_closed q ev Hq) as [Hc <-]. apply IH, Hc.
Qed.

(** Once settled, a query delivers nothing more. *)
Lemma step_settled q ev :
  Settled q -> Settled (step q ev) /\ callbacks (step q ev) = callbacks q.
Proof.
  destruct q as [ef so tp el ml sp tr]. unfold Settled. cbn.
  intros (-> & -> & -> & ->).
  destruct ev as [|err|err|msg]; unfold_step; cbn; auto.
  destruct el; cbn; auto.
Qed.

Lemma steps_settled evs q :
  Settled q -> callbacks (fold_left step evs q) = callbacks q.
Proof.
  revert q. induction evs as [|ev evs IH]; intros q Hq; cbn; [reflexivity|].
  destruct (step_settled q ev Hq) as [Hs <-]. apply IH, Hs.
Qed.

Lemma successes_callbacks q : callbacks q = [] -> successes q = [].
Proof.
  unfold callbacks, successes. induction (trace q) as [|e l IH]; cbn; [reflexivity|].
  destruct e; cbn; try discriminate; auto.
Qed.

Lemma step_idle ev : step idle ev = idle.
Proof. destruct ev; reflexivity. Qed.

Lemma steps_idle evs : fold_left step evs idle = idle.
Proof. induction evs as [|ev evs IH]; cbn; [reflexivity|]. rewrite step_idle. exact IH. Qed.

(** ** Lemmas: delivery of a reply *)

(** A datagram that reaches the listener is decoded and delivered. *)
Lemma step_message q msg :
  messageListener q = true -> socketOpen q = true ->
  step q (MessageArrived msg) =
    mkQuery (errorFired q) false false (errorListener q) false (sendPending q)
      (trace q ++ [ClearTimeout; Close;
                   Callback Js.Null (Js.Date (decode_date msg))]).
Proof.
  destruct q as [ef so tp el ml sp tr]. cbn. intros -> ->.
  unfold_step. cbn -[decode_date]. rewrite <- !app_assoc. reflexivity.
Qed.

Lemma message_delivered q msg :
  messageListener q = true -> socketOpen q = true ->
  callbacks (step q (MessageArrived msg)) =
    callbacks q ++ [Callback Js.Null (Js.Date (decode_date msg))].
Proof.
  intros Hl Ho. rewrite step_message by assumption.
  unfold callbacks. cbn [trace]. rewrite List.filter_app. reflexivity.
Qed.

(** The decoder reads bytes 40 to 47 and nothing else. *)
Lemma decode_ext msg msg' :
  (forall i, (40 <= i < 48)%nat -> msg !! i = msg' !! i) ->
  decode_intpart msg = decode_intpart msg' /\
  decode_fractpart msg = decode_fractpart msg' /\
  decode_milliseconds msg = decode_milliseconds msg' /\
  decode_date msg = decode_date msg'.
Proof.
  intros H.
  assert (Hacc : forall acc i, (i < 8)%nat ->
            accumulate msg acc i = accumulate msg' acc i).
  { intros acc i Hi. unfold accumulate, Buffer_get, offsetTransmitTime.
    rewrite (H (40 + i)%nat) by lia. reflexivity. }
  assert (Hi : decode_intpart msg = decode_intpart msg').
  { unfold decode_intpart. cbn [fold_left]. rewrite !Hacc by lia. reflexivity. }
  assert (Hf : decode_fractpart msg = decode_fractpart msg').
  { unfold decode_fractpart. cbn [fold_left]. rewrite !Hacc by lia. reflexivity. }
  assert (Hm : decode_milliseconds msg = decode_milliseconds msg').
  { unfold decode_milliseconds. rewrite Hi, Hf. reflexivity. }
  repeat split; try assumption.
  unfold decode_date. rewrite Hm. reflexivity.
Qed.

(** NaN is absorbing for the accumulation, and a missing byte produces it. *)
Lemma accumulate_nan msg i : accumulate msg S754_nan i = S754_nan.
Proof. unfold accumulate. reflexivity. Qed.

Lemma accumulate_missing msg acc i :
  msg !! (offsetTransmitTime + i)%nat = None -> accumulate msg acc i = S754_nan.
Proof.
  intros H. unfold accumulate, Buffer_get. rewrite H. cbn [Js.ToNumber].
  unfold Js.add, SFadd. destruct (Js.mul (Js.of_Z 256) acc); reflexivity.
Qed.

Lemma fold_accumulate_nan msg idx :
  fold_left (accumulate msg) idx S754_nan = S754_nan.
Proof. induction idx as [|i idx IH]; cbn; [reflexivity|]. rewrite accumulate_nan. exact IH. Qed.

Lemma fold_accumulate_missing msg idx acc :
  Exists (fun i => msg !! (offsetTransmitTime + i)%nat = None) idx ->
  fold_left (accumulate msg) idx acc = S754_nan.
Proof.
  intros H. revert acc. induction H as [i idx Hi|i idx _ IH]; intros acc; cbn.
  - rewrite accumulate_missing by assumption. apply fold_accumulate_nan.
  - apply IH.
Qed.

Lemma milliseconds_nan msg :
  decode_fractpart msg = S754_nan ->
  decode_milliseconds msg = S754_nan /\ decode_date msg = None.
Proof.
  intros Hf.
  assert (Hm : decode_milliseconds msg = S754_nan).
  { unfold decode_milliseconds. rewrite Hf.
    unfold Js.add, SFadd. destruct (Js.mul (decode_intpart msg) (Js.of_Z 1000)); reflexivity. }
  split; [exact Hm|]. unfold decode_date. rewrite Hm. reflexivity.
Qed.

Lemma of_Z_not_nan n : 0 <= n < 2 ^ 53 -> Js.is_nan (Js.of_Z n) = false.
Proof.
  intros H. rewrite of_Z_dyadic by assumption. unfold dyadic, canon.
  destruct (n =? 0); reflexivity.
Qed.

(** The integer part of the specification's rational. *)
Lemma Qfloor_spec_milliseconds msg :
  Qfloor (spec_milliseconds msg) =
    spec_intpart msg * 1000 + spec_fractpart msg * 1000 / 2 ^ 32.
Proof.
  set (I := spec_intpart msg). set (Fr := spec_fractpart msg).
  assert (Heq : (spec_milliseconds msg == (I * 1000 * 2 ^ 32 + Fr * 1000) # (2 ^ 32))%Q).
  { unfold spec_milliseconds. fold I Fr.
    unfold Qeq, Qplus, Qmult, Qdiv, Qinv, inject_Z. cbn -[Z.mul Z.add Z.pow Pos.pow].
    change (Z.pos (2 ^ 32)) with (2 ^ 32). 
    change (2 ^ 32) with 4294967296. cbn. lia. }
  rewrite (Qfloor_comp _ _ Heq). unfold Qfloor.
  change (Z.pos (2 ^ 32)) with (2 ^ 32).
  rewrite Z.div_add_l by (vm_compute; discriminate). reflexivity.
Qed.

(** What one turn of the event loop adds to the trace, outcome by outcome. *)
Lemma step_closes q ev :
  Inv q ->
  (length (callbacks (step q ev)) <= S (length (callbacks q)))%nat /\
  match ev with
  | SocketError _ => closes (step q ev) = closes q
  | _ =>
      (closes (step q ev) + length (callbacks q) =
       closes q + length (callbacks (step q ev)))%nat /\
      (callbacks (step q ev) <> callbacks q -> socketOpen (step q ev) = false)
  end.
Proof.
  destruct q as [ef so tp el ml sp tr]. unfold Inv. cbn.
  intros (Hel & Htp & Hsp).
  assert (Hso : tp = true -> so = true) by (intros H; apply Htp, H).
  clear Htp Hsp. subst el.
  destruct ev as [|err|err|msg]; unfold_step; cbn -[decode_date].
  - destruct tp; [rewrite (Hso eq_refl)|]; cbn;
      unfold_obs; rewrite ?app_nil_r; outcome_case.
  - destruct ef; cbn; unfold_obs; rewrite ?app_nil_r; split; lia.
  - destruct sp, (Js.ToBoolean err), ef, so; cbn;
      unfold_obs; rewrite ?app_nil_r; outcome_case.
  - destruct ml, so; cbn -[decode_date];
      unfold_obs; rewrite ?app_nil_r; outcome_case.
Qed.

Lemma step_timeout q :
  timerPending q = true -> socketOpen q = true ->
  step q TimerExpired =
    mkQuery (errorFired q) false false (errorListener q)
      (messageListener q) (sendPending q)
      (trace q ++
       [Close;
        Callback (Js.String "Timeout waiting for NTP response.") Js.Null]).
Proof.
  destruct q as [ef so tp el ml sp tr]. cbn. intros -> ->.
  unfold_step. cbn. rewrite <- app_assoc. reflexivity.
Qed.

Lemma step_send_error q err :
  Inv q -> sendPending q = true -> errorFired q = false ->
  Js.ToBoolean err = true ->
  callbacks (step q (SendCompleted err)) = callbacks q ++ [Callback err Js.Null] /\
  socketOpen (step q (SendCompleted err)) = false /\
  closes (step q (SendCompleted err)) = S (closes q) /\
  Settled (step q (SendCompleted err)).
Proof.
  destruct q as [ef so tp el ml sp tr]. unfold Inv, Settled. cbn.
  intros (_ & _ & Hml) -> -> Herr. rewrite (Hml eq_refl).
  unfold_step. cbn. rewrite Herr. cbn.
  destruct so; cbn; unfold_obs; rewrite ?app_nil_r; repeat split; lia.
Qed.

Lemma decode_intpart_exact msg :
  (44 <= length msg)%nat ->
  decode_intpart msg = Js.of_Z (spec_intpart msg) /\ 0 <= spec_intpart msg < 2 ^ 32.
Proof.
  intros Hlen.
  destruct (fold_accumulate_exact msg [0; 1; 2; 3]%nat 0) as [Hi Hib].
  { repeat constructor; unfold offsetTransmitTime; lia. }
  { cbn; lia. } { cbn; lia. }
  change (256 ^ 4) with (2 ^ 32) in Hib. fold (spec_intpart msg) in Hi, Hib.
  change (dyadic 0 0) with (S754_zero false) in Hi. fold (decode_intpart msg) in Hi.
  assert (H32 : 2 ^ 32 < 2 ^ 53) by reflexivity.
  rewrite of_Z_dyadic by lia. auto.
Qed.

(** * The claims *)

(** ** Single delivery *)

(** C1 (the single-delivery claim fails on the code; this is the run that
    shows it).  After [send] has completed without error, a socket
    ['error'] followed by a reply invokes the completion callback twice:
    first with the error, then with a date.  The flag [errorFired] is
    set by the ['error'] listener but never read by the ['message']
    listener. *)
Theorem error_then_reply_delivers_twice :
  callbacks (run Js.Undefined Js.Undefined (Js.Function 0) stale
               [SendCompleted Js.Null;
                SocketError (Js.Error "ECONNREFUSED");
                MessageArrived zero_reply]) =
    [Callback (Js.Error "ECONNREFUSED") Js.Null;
     Callback Js.Null (Js.Date (Some (-2208988800000)))].
Proof. vm_compute. reflexivity. Qed.

(** The timer's handler does not set the flag either: a send error
    that follows the timeout is a second outcome. *)
Example timeout_then_send_error_delivers_twice :
  callbacks (run Js.Undefined Js.Undefined (Js.Function 0) stale
               [TimerExpired; SendCompleted (Js.Error "ENOTFOUND")]) =
    [Callback (Js.String "Timeout waiting for NTP response.") Js.Null;
     Callback (Js.Error "ENOTFOUND") Js.Null].
Proof. vm_compute. reflexivity. Qed.

(** ** Decoding the Transmit Timestamp *)

(** C2, as amended.  For every received message of at least 48 bytes,
    [intpart] is the big-endian base-256 accumulation of bytes 40-43 and
    [fractpart] that of bytes 44-47, both exactly; the date delivered to
    the callback lies a whole number [t] of milliseconds after
    1900-01-01T00:00:00 UTC, where [t] is the integer part of
    [intpart*1000 + fractpart*1000/2^32] or that integer plus one.
    ([setUTCMilliseconds] keeps the integer part of the binary64 sum.) *)
Theorem transmit_timestamp_decoded msg q :
  (48 <= length msg)%nat ->
  messageListener q = true -> socketOpen q = true ->
  decode_intpart msg = Js.of_Z (spec_intpart msg) /\
  decode_fractpart msg = Js.of_Z (spec_fractpart msg) /\
  exists t : Z,
    callbacks (step q (MessageArrived msg)) =
      callbacks q ++
      [Callback Js.Null (Js.Date (Some (Date.UTC_Jan_01 1900 + t)))] /\
    Qfloor (spec_milliseconds msg) <= t <= Qfloor (spec_milliseconds msg) + 1.
Proof.
  intros Hlen Hl Ho.
  destruct (decode_parts msg Hlen) as (Hi & Hf & _ & _).
  destruct (decode_date_bounds msg Hlen) as (t & Hd & Hlo & Hhi).
  split; [exact Hi|]. split; [exact Hf|].
  exists t. rewrite message_delivered, Hd, Qfloor_spec_milliseconds by assumption.
  split; [reflexivity | lia].
Qed.

(** Witness for C2: a 48-byte reply reaching a query that awaits one. *)
Lemma transmit_timestamp_decoded_witness :
  (48 <= length half_second_reply)%nat /\
  messageListener awaiting_reply = true /\ socketOpen awaiting_reply = true /\
  decode_intpart half_second_reply = Js.of_Z (spec_intpart half_second_reply) /\
  decode_fractpart half_second_reply = Js.of_Z (spec_fractpart half_second_reply) /\
  exists t : Z,
    callbacks (step awaiting_reply (MessageArrived half_second_reply)) =
      callbacks awaiting_reply ++
      [Callback Js.Null (Js.Date (Some (Date.UTC_Jan_01 1900 + t)))] /\
    Qfloor (spec_milliseconds half_second_reply) <= t
      <= Qfloor (spec_milliseconds half_second_reply) + 1.
Proof.
  split; [simpl; lia|]. split; [reflexivity|]. split; [reflexivity|].
  apply transmit_timestamp_decoded; [simpl; lia | reflexivity | reflexivity].
Defined.

(** Counterexample to C2 as stated: with fraction 0x00000001 the formula
    gives 1000/2^32 milliseconds, which is not zero, but the date
    delivered is the epoch itself. *)
Lemma sub_millisecond_fraction_dropped :
  (48 <= length tiny_fraction_reply)%nat /\
  callbacks (step awaiting_reply (MessageArrived tiny_fraction_reply)) =
    callbacks awaiting_reply ++
    [Callback Js.Null (Js.Date (Some (Date.UTC_Jan_01 1900 + 0)))] /\
  ~ (spec_milliseconds tiny_fraction_reply == inject_Z 0)%Q.
Proof.
  split; [simpl; lia|]. split; [vm_compute; reflexivity|].
  unfold Qeq. vm_compute. discriminate.
Qed.

(** The sum is rounded to binary64 before its fraction is dropped, so
    the delivered date can lie in the millisecond after the exact value. *)
Example rounding_carries_into_next_millisecond :
  Qfloor (spec_milliseconds carry_reply) = 3758096384999 /\
  Date.ms_since_1900 (decode_date carry_reply) = Some 3758096385000.
Proof. split; vm_compute; reflexivity. Qed.

(** 3155673600 seconds after the epoch is 2000-01-01T00:00:00.000 UTC. *)
Example known_offset_2000 :
  spec_intpart year_2000_reply = 3155673600 /\
  decode_date year_2000_reply = Some (Date.UTC_Jan_01 2000).
Proof. split; vm_compute; reflexivity. Qed.

(** C7.  Given a 48-byte response whose bytes 40-43 and 44-47 are all
    zero, the date delivered to the callback is 1900-01-01T00:00:00.000
    UTC (the time value of 1 January 1900), zero milliseconds after the
    epoch. *)
Theorem zero_timestamp_is_epoch msg q :
  length msg = 48%nat ->
  (forall i, (40 <= i < 48)%nat -> msg !! i = Some x00) ->
  messageListener q = true -> socketOpen q = true ->
  callbacks (step q (MessageArrived msg)) =
    callbacks q ++ [Callback Js.Null (Js.Date (Some (Date.UTC_Jan_01 1900)))] /\
  Date.ms_since_1900 (decode_date msg) = Some 0.
Proof.
  intros Hlen Hz Hl Ho.
  assert (Hd : decode_date msg = Some (Date.UTC_Jan_01 1900)).
  { destruct (decode_ext msg zero_reply) as (_ & _ & _ & ->).
    - intros i Hi. rewrite (Hz i Hi). symmetry.
      apply lookup_replicate_2. lia.
    - vm_compute. reflexivity. }
  rewrite message_delivered, Hd by assumption.
  split; [reflexivity | vm_compute; reflexivity].
Qed.

(** Witness for C7: the all-zero reply. *)
Lemma zero_timestamp_is_epoch_witness :
  length zero_reply = 48%nat /\
  (forall i, (40 <= i < 48)%nat -> zero_reply !! i = Some x00) /\
  messageListener awaiting_reply = true /\ socketOpen awaiting_reply = true /\
  callbacks (step awaiting_reply (MessageArrived zero_reply)) =
    callbacks awaiting_reply
      ++ [Callback Js.Null (Js.Date (Some (Date.UTC_Jan_01 1900)))] /\
  Date.ms_since_1900 (decode_date zero_reply) = Some 0.
Proof.
  assert (Hz : forall i, (40 <= i < 48)%nat -> zero_reply !! i = Some x00)
    by (intros i Hi; apply lookup_replicate_2; lia).
  split; [reflexivity|]. split; [exact Hz|].
  split; [reflexivity|]. split; [reflexivity|].
  exact (zero_timestamp_is_epoch zero_reply awaiting_reply eq_refl Hz eq_refl eq_refl).
Defined.

(** C8.  Given a response whose Transmit Timestamp has integer part 0 and
    fractional part 0x80000000, the decoded milliseconds value is
    exactly 500 and the delivered date is exactly 500 ms after
    1900-01-01T00:00:00 UTC. *)
Theorem half_fraction_is_500_ms msg q :
  (48 <= length msg)%nat ->
  spec_intpart msg = 0 -> spec_fractpart msg = 0x80000000 ->
  messageListener q = true -> socketOpen q = true ->
  decode_milliseconds msg = Js.of_Z 500 /\
  callbacks (step q (MessageArrived msg)) =
    callbacks q
      ++ [Callback Js.Null (Js.Date (Some (Date.UTC_Jan_01 1900 + 500)))].
Proof.
  intros Hlen Hi Hf Hl Ho.
  assert (Hm : decode_milliseconds msg = Js.of_Z 500).
  { rewrite decode_milliseconds_sum, Hi, Hf by assumption. vm_compute. reflexivity. }
  split; [exact Hm|].
  rewrite message_delivered by assumption.
  rewrite (decode_date_of_ms msg 500); [reflexivity | | ].
  - rewrite Hm. vm_compute. reflexivity.
  - split; [lia | reflexivity].
Qed.

(** Witness for C8: seconds 0, fraction 0x80000000. *)
Lemma half_fraction_is_500_ms_witness :
  (48 <= length half_second_reply)%nat /\
  spec_intpart half_second_reply = 0 /\
  spec_fractpart half_second_reply = 0x80000000 /\
  messageListener awaiting_reply = true /\ socketOpen awaiting_reply = true /\
  decode_milliseconds half_second_reply = Js.of_Z 500 /\
  callbacks (step awaiting_reply (MessageArrived half_second_reply)) =
    callbacks awaiting_reply
      ++ [Callback Js.Null (Js.Date (Some (Date.UTC_Jan_01 1900 + 500)))].
Proof.
  assert (Hlen : (48 <= length half_second_reply)%nat) by (simpl; lia).
  split; [exact Hlen|]. split; [reflexivity|]. split; [reflexivity|].
  split; [reflexivity|]. split; [reflexivity|].
  exact (half_fraction_is_500_ms half_second_reply awaiting_reply
           Hlen eq_refl eq_refl eq_refl eq_refl).
Defined.

(** C10, as amended.  For every received datagram shorter than 48 bytes
    the missing bytes read as [undefined]: [fractpart] and the
    milliseconds value are NaN, [intpart] is NaN exactly when the
    datagram is shorter than 44 bytes, and the callback is invoked as a
    success (null error) carrying an invalid date; a short reply is
    never reported as an error. *)
Theorem short_reply_yields_invalid_date msg q :
  (length msg < 48)%nat ->
  messageListener q = true -> socketOpen q = true ->
  Js.is_nan (decode_intpart msg) = (length msg <? 44)%nat /\
  decode_fractpart msg = S754_nan /\
  decode_milliseconds msg = S754_nan /\
  callbacks (step q (MessageArrived msg)) =
    callbacks q ++ [Callback Js.Null (Js.Date None)].
Proof.
  intros Hlen Hl Ho.
  assert (Hf : decode_fractpart msg = S754_nan).
  { unfold decode_fractpart. apply fold_accumulate_missing.
    do 3 apply Exists_cons_tl. apply Exists_cons_hd.
    apply lookup_ge_None_2. unfold offsetTransmitTime. lia. }
  destruct (milliseconds_nan msg Hf) as [Hm Hd].
  split; [|split; [exact Hf|split; [exact Hm|]]].
  - destruct (Nat.ltb_spec (length msg) 44) as [Hlt|Hge].
    + unfold decode_intpart. rewrite fold_accumulate_missing; [reflexivity|].
      do 3 apply Exists_cons_tl. apply Exists_cons_hd.
      apply lookup_ge_None_2. unfold offsetTransmitTime. lia.
    + destruct (decode_intpart_exact msg Hge) as [-> Hr].
      assert (H32 : 2 ^ 32 < 2 ^ 53) by reflexivity.
      apply of_Z_not_nan. lia.
  - rewrite message_delivered, Hd by assumption. reflexivity.
Qed.

(** Witness for C10: a datagram of 44 bytes. *)
Lemma short_reply_yields_invalid_date_witness :
  (length short_reply < 48)%nat /\
  messageListener awaiting_reply = true /\ socketOpen awaiting_reply = true /\
  Js.is_nan (decode_intpart short_reply) = (length short_reply <? 44)%nat /\
  decode_fractpart short_reply = S754_nan /\
  decode_milliseconds short_reply = S754_nan /\
  callbacks (step awaiting_reply (MessageArrived short_reply)) =
    callbacks awaiting_reply ++ [Callback Js.Null (Js.Date None)].
Proof.
  assert (Hlen : (length short_reply < 48)%nat) by (simpl; lia).
  split; [exact Hlen|]. split; [reflexivity|]. split; [reflexivity|].
  exact (short_reply_yields_invalid_date short_reply awaiting_reply
           Hlen eq_refl eq_refl).
Defined.

(** Counterexample to C10 as stated: a datagram of 44 bytes is shorter
    than 48 bytes, yet its [intpart] is the number 0, not NaN. *)
Lemma seconds_field_of_short_reply_is_a_number :
  (length short_reply < 48)%nat /\
  decode_intpart short_reply = S754_zero false /\
  Js.is_nan (decode_intpart short_reply) = false.
Proof. split; [simpl; lia|]. split; vm_compute; reflexivity. Qed.

(** ** The request *)

(** C3.  For every query started with a callback that is a function,
    exactly one datagram is transmitted, whatever happens afterwards; it
    is 48 bytes long, its byte 0 is 0x1B and its bytes 1 to 47 are
    zero. *)
Theorem packet_shape server port cb junk evs :
  Js.typeof cb = "function" ->
  exists pkt,
    datagrams (run server port cb junk evs) =
      [Send pkt (Js.default_param port defaultNtpPort)
                (Js.default_param server defaultNtpServer)] /\
    length pkt = 48%nat /\
    pkt !! 0%nat = Some x1b /\
    forall i, (1 <= i <= 47)%nat -> pkt !! i = Some x00.
Proof.
  intros Hcb. exists request. split; [|split; [reflexivity|split; [reflexivity|]]].
  - unfold run. destruct (steps_datagrams evs (start server port cb junk)) as [-> _].
    rewrite start_valid by assumption. reflexivity.
  - intros i Hi. unfold request.
    destruct i as [|i]; [lia|]. cbn [lookup list_lookup].
    apply lookup_replicate. split; [reflexivity|lia].
Qed.

(** Witness for C3. *)
Lemma packet_shape_witness :
  Js.typeof (Js.Function 0) = "function" /\
  exists pkt,
    datagrams (run (Js.String "time.example.org") Js.Undefined (Js.Function 0)
                   stale [TimerExpired]) =
      [Send pkt (Js.default_param Js.Undefined defaultNtpPort)
                (Js.default_param (Js.String "time.example.org") defaultNtpServer)] /\
    length pkt = 48%nat /\
    pkt !! 0%nat = Some x1b /\
    forall i, (1 <= i <= 47)%nat -> pkt !! i = Some x00.
Proof. split; [reflexivity | apply packet_shape; reflexivity]. Defined.

(** C9.  When the callback argument is null, absent or not a function,
    the call does nothing: no socket, no datagram, no timer, and no
    event afterwards has any effect. *)
Theorem no_callback_no_op server port cb junk evs :
  cb = Js.Null \/ Js.typeof cb <> "function" ->
  run server port cb junk evs = idle /\
  trace (run server port cb junk evs) = [].
Proof.
  intros Hcb.
  assert (Hstart : start server port cb junk = idle).
  { unfold start, getNetworkTime.
    destruct Hcb as [->|Hty]; [reflexivity|].
    destruct cb; try reflexivity. contradiction Hty. reflexivity. }
  unfold run. rewrite Hstart, steps_idle. split; reflexivity.
Qed.

(** Witness for C9: the callback left out. *)
Lemma no_callback_no_op_witness :
  (Js.Undefined = Js.Null \/ Js.typeof Js.Undefined <> "function") /\
  run (Js.String "time.example.org") Js.Undefined Js.Undefined stale
      [TimerExpired; MessageArrived zero_reply] = idle /\
  trace (run (Js.String "time.example.org") Js.Undefined Js.Undefined stale
             [TimerExpired; MessageArrived zero_reply]) = [].
Proof.
  assert (H : Js.Undefined = Js.Null \/ Js.typeof Js.Undefined <> "function")
    by (right; simpl; discriminate).
  split; [exact H | apply no_callback_no_op; exact H].
Defined.

(** ** Outcomes and the socket *)

(** C4, as amended.  In every turn of the event loop of a running query
    at most one outcome is delivered; delivering a success, a timeout or
    a send error calls [close] exactly once in that turn and leaves the
    socket closed, while delivering a socket error does not close the
    socket. *)
Theorem close_accompanies_outcome server port cb junk evs ev :
  Js.typeof cb = "function" ->
  let q := run server port cb junk evs in
  let q' := step q ev in
  (length (callbacks q') <= S (length (callbacks q)))%nat /\
  match ev with
  | SocketError _ => closes q' = closes q
  | _ =>
      (closes q' + length (callbacks q) = closes q + length (callbacks q'))%nat /\
      (callbacks q' <> callbacks q -> socketOpen q' = false)
  end.
Proof. intros Hcb q q'. apply step_closes, Inv_run, Hcb. Qed.

(** Witness for C4: a reply reaching a query that awaits one. *)
Lemma close_accompanies_outcome_witness :
  Js.typeof (Js.Function 0) = "function" /\
  (length (callbacks (step awaiting_reply (MessageArrived zero_reply)))
     <= S (length (callbacks awaiting_reply)))%nat /\
  (closes (step awaiting_reply (MessageArrived zero_reply))
     + length (callbacks awaiting_reply) =
   closes awaiting_reply
     + length (callbacks (step awaiting_reply (MessageArrived zero_reply))))%nat /\
  (callbacks (step awaiting_reply (MessageArrived zero_reply))
     <> callbacks awaiting_reply ->
   socketOpen (step awaiting_reply (MessageArrived zero_reply)) = false).
Proof.
  split; [reflexivity|].
  exact (close_accompanies_outcome Js.Undefined Js.Undefined (Js.Function 0) stale
           [SendCompleted Js.Null] (MessageArrived zero_reply) eq_refl).
Defined.

(** Counterexample to C4 as stated: the query has ended with a socket
    error, and [close] was never called. *)
Lemma socket_error_leaves_socket_open :
  callbacks after_socket_error = [Callback (Js.Error "EACCES") Js.Null] /\
  closes after_socket_error = 0%nat /\
  socketOpen after_socket_error = true.
Proof. repeat split; vm_compute; reflexivity. Qed.

(** The same socket can also be closed twice: the timer's handler
    does not set [errorFired]. *)
Example timeout_then_send_error_closes_twice :
  closes (run Js.Undefined Js.Undefined (Js.Function 0) stale
              [TimerExpired; SendCompleted (Js.Error "ENOTFOUND")]) = 2%nat.
Proof. vm_compute. reflexivity. Qed.

(** C5.  The timer is armed once, for [ntpReplyTimeout] = 10000 ms.  If
    it fires (it is still pending, so no reply has been decoded), the
    query fails with the Timeout error as its only outcome so far, the
    socket is closed, and no later event delivers a date. *)
Theorem timeout_governs server port cb junk evs :
  Js.typeof cb = "function" ->
  timerPending (run server port cb junk evs) = true ->
  let q := run server port cb junk evs in
  let q' := step q TimerExpired in
  ntpReplyTimeout = 10000 /\
  timers q = [SetTimeout ntpReplyTimeout] /\
  callbacks q' =
    [Callback (Js.String "Timeout waiting for NTP response.") Js.Null] /\
  closes q' = S (closes q) /\
  socketOpen q' = false /\
  forall evs', successes (fold_left step evs' q') = [].
Proof.
  intros Hcb Htp q q'. split; [reflexivity|]. split.
  - unfold q, run. destruct (steps_datagrams evs (start server port cb junk)) as [_ ->].
    rewrite start_valid by assumption. reflexivity.
  - destruct (Inv_run server port cb junk evs Hcb) as (_ & Hinv & _).
    fold q in Hinv, Htp. destruct (Hinv Htp) as [Hso Hcbs].
    unfold q'. rewrite (step_timeout q Htp Hso).
    split; [|split; [|split; [reflexivity|]]].
    + unfold callbacks in *. cbn [trace].
      rewrite List.filter_app, Hcbs. reflexivity.
    + unfold closes. cbn [trace].
      rewrite List.filter_app, List.length_app. cbn. lia.
    + intros evs'. rewrite steps_closed by reflexivity.
      unfold successes. cbn [trace]. rewrite List.filter_app.
      fold (successes q). rewrite (successes_callbacks q Hcbs). reflexivity.
Qed.

(** Witness for C5: the timer fires while the query awaits a reply. *)
Lemma timeout_governs_witness :
  Js.typeof (Js.Function 0) = "function" /\
  timerPending awaiting_reply = true /\
  ntpReplyTimeout = 10000 /\
  timers awaiting_reply = [SetTimeout ntpReplyTimeout] /\
  callbacks (step awaiting_reply TimerExpired) =
    [Callback (Js.String "Timeout waiting for NTP response.") Js.Null] /\
  closes (step awaiting_reply TimerExpired) = S (closes awaiting_reply) /\
  socketOpen (step awaiting_reply TimerExpired) = false /\
  forall evs', successes (fold_left step evs' (step awaiting_reply TimerExpired)) = [].
Proof.
  split; [reflexivity|]. split; [reflexivity|].
  exact (timeout_governs Js.Undefined Js.Undefined (Js.Function 0) stale
           [SendCompleted Js.Null] eq_refl eq_refl).
Defined.

(** C6, as amended.  When [send] reports an error and no socket error
    has been delivered before ([errorFired] is false), the callback
    receives that error, the timer is disarmed, [close] is called, and
    no further outcome is delivered, whatever happens afterwards. *)
Theorem send_error_fails_query server port cb junk evs err :
  Js.typeof cb = "function" ->
  sendPending (run server port cb junk evs) = true ->
  errorFired (run server port cb junk evs) = false ->
  Js.ToBoolean err = true ->
  let q := run server port cb junk evs in
  let q' := step q (SendCompleted err) in
  callbacks q' = callbacks q ++ [Callback err Js.Null] /\
  timerPending q' = false /\
  socketOpen q' = false /\
  closes q' = S (closes q) /\
  forall evs', callbacks (fold_left step evs' q') = callbacks q'.
Proof.
  intros Hcb Hsp Hef Herr q q'.
  destruct (step_send_error q err (Inv_run server port cb junk evs Hcb) Hsp Hef Herr)
    as (Hc & Ho & Hcl & Hs).
  fold q' in Hc, Ho, Hcl, Hs.
  split; [exact Hc|]. split; [apply Hs|]. split; [exact Ho|]. split; [exact Hcl|].
  intros evs'. apply steps_settled, Hs.
Qed.

(** Witness for C6: [send] fails right after the call. *)
Lemma send_error_fails_query_witness :
  Js.typeof (Js.Function 0) = "function" /\
  sendPending (run Js.Undefined Js.Undefined (Js.Function 0) stale []) = true /\
  errorFired (run Js.Undefined Js.Undefined (Js.Function 0) stale []) = false /\
  Js.ToBoolean (Js.Error "ENOTFOUND") = true /\
  callbacks (step (run Js.Undefined Js.Undefined (Js.Function 0) stale [])
                  (SendCompleted (Js.Error "ENOTFOUND"))) =
    callbacks (run Js.Undefined Js.Undefined (Js.Function 0) stale [])
      ++ [Callback (Js.Error "ENOTFOUND") Js.Null] /\
  timerPending (step (run Js.Undefined Js.Undefined (Js.Function 0) stale [])
                     (SendCompleted (Js.Error "ENOTFOUND"))) = false /\
  socketOpen (step (run Js.Undefined Js.Undefined (Js.Function 0) stale [])
                   (SendCompleted (Js.Error "ENOTFOUND"))) = false /\
  closes (step (run Js.Undefined Js.Undefined (Js.Function 0) stale [])
               (SendCompleted (Js.Error "ENOTFOUND"))) =
    S (closes (run Js.Undefined Js.Undefined (Js.Function 0) stale [])) /\
  forall evs',
    callbacks (fold_left step evs'
                 (step (run Js.Undefined Js.Undefined (Js.Function 0) stale [])
                       (SendCompleted (Js.Error "ENOTFOUND")))) =
    callbacks (step (run Js.Undefined Js.Undefined (Js.Function 0) stale [])
                    (SendCompleted (Js.Error "ENOTFOUND"))).
Proof.
  split; [reflexivity|]. split; [reflexivity|]. split; [reflexivity|].
  split; [reflexivity|].
  exact (send_error_fails_query Js.Undefined Js.Undefined (Js.Function 0) stale []
           (Js.Error "ENOTFOUND") eq_refl eq_refl eq_refl eq_refl).
Defined.

(** Counterexample to C6 as stated: a send error that follows a socket
    error is dropped by the guard on [errorFired]; the callback never
    sees it and the socket stays open. *)
Lemma send_error_after_socket_error_is_dropped :
  sendPending after_socket_error = true /\
  Js.ToBoolean (Js.Error "ENOTFOUND") = true /\
  callbacks (step after_socket_error (SendCompleted (Js.Error "ENOTFOUND"))) =
    [Callback (Js.Error "EACCES") Js.Null] /\
  socketOpen (step after_socket_error (SendCompleted (Js.Error "ENOTFOUND"))) = true /\
  closes (step after_socket_error (SendCompleted (Js.Error "ENOTFOUND"))) = 0%nat.
Proof. repeat split; vm_compute; reflexivity. Qed.

(** * Further properties of the code *)

(** ** Lemmas: counting outcomes *)


Lemma step_budget q ev :
  Inv q ->
  (length (callbacks (step q ev)) + pending_outcomes (step q ev)
     <= length (callbacks q) + pending_outcomes q)%nat /\
  (closes (step q ev) + pending_outcomes (step q ev)
     <= closes q + pending_outcomes q)%nat.
Proof.
  destruct q as [ef so tp el ml sp tr]. unfold Inv. cbn.
  intros (_ & Htp & _).
  assert (Hso : tp = true -> so = true) by (intros H; apply Htp, H). clear Htp.
  destruct ev as [|err|err|msg]; unfold_step; cbn -[decode_date].
  - destruct tp; [rewrite (Hso eq_refl)|]; cbn; unfold_more; destruct ef, so; cbn; lia.
  - destruct el, ef; cbn; unfold_more; destruct so; cbn; lia.
  - destruct sp, (Js.ToBoolean err), ef, so; cbn; unfold_more; cbn; lia.
  - destruct ml, so; cbn -[decode_date]; unfold_more; destruct ef; cbn; lia.
Qed.

Lemma steps_budget evs q :
  Inv q ->
  (length (callbacks (fold_left step evs q)) <= length (callbacks q) + pending_outcomes q)%nat /\
  (closes (fold_left step evs q) <= closes q + pending_outcomes q)%nat.
Proof.
  intros Hq.
  assert (H : (length (callbacks (fold_left step evs q))
                 + pending_outcomes (fold_left step evs q)
               <= length (callbacks q) + pending_outcomes q)%nat /\
              (closes (fold_left step evs q) + pending_outcomes (fold_left step evs q)
               <= closes q + pending_outcomes q)%nat).
  { revert q Hq. induction evs as [|ev evs IH]; intros q Hq; cbn; [lia|].
    destruct (IH (step q ev) (Inv_step q ev Hq)) as [H1 H2].
    destruct (step_budget q ev Hq) as [H3 H4]. lia. }
  lia.
Qed.

(** X2.  Whatever events occur and in whatever order, the callback is
    invoked at most twice and [close] is called at most twice. *)
Theorem at_most_two_outcomes server port cb junk evs :
  Js.typeof cb = "function" ->
  (length (callbacks (run server port cb junk evs)) <= 2)%nat /\
  (closes (run server port cb junk evs) <= 2)%nat.
Proof.
  intros Hcb. unfold run.
  pose proof (Inv_start server port cb junk Hcb) as Hi.
  rewrite start_valid in Hi |- * by assumption.
  destruct (steps_budget evs _ Hi) as [H1 H2].
  cbn in H1, H2. lia.
Qed.

Lemma at_most_two_outcomes_witness :
  Js.typeof (Js.Function 0) = "function" /\
  (length (callbacks (run Js.Undefined Js.Undefined (Js.Function 0) stale
                          [TimerExpired; SendCompleted (Js.Error "ENOTFOUND")]))
     <= 2)%nat /\
  (closes (run Js.Undefined Js.Undefined (Js.Function 0) stale
               [TimerExpired; SendCompleted (Js.Error "ENOTFOUND")]) <= 2)%nat.
Proof.
  split; [reflexivity|].
  exact (at_most_two_outcomes Js.Undefined Js.Undefined (Js.Function 0) stale
           [TimerExpired; SendCompleted (Js.Error "ENOTFOUND")] eq_refl).
Defined.

Lemma Waiting_step q ev : Inv q -> Waiting q -> Waiting (step q ev).
Proof.
  destruct q as [ef so tp el ml sp tr]. unfold Inv, Waiting. cbn.
  intros (_ & Htp & _) Hw.
  assert (Hso : tp = true -> so = true) by (intros H; apply Htp, H). clear Htp.
  assert (Hne : forall (l : list Effect) e, l ++ [e] <> []) by (intros [|] ?; discriminate).
  destruct ev as [|err|err|msg]; unfold_step; cbn -[decode_date].
  - destruct tp; [rewrite (Hso eq_refl)|]; cbn; unfold_more; [right; auto | exact Hw].
  - destruct el, ef; cbn; unfold_more; try exact Hw. right; auto.
  - destruct sp, (Js.ToBoolean err), ef, so; cbn; unfold_more; try exact Hw; right; auto.
  - destruct ml, so; cbn -[decode_date]; unfold_more; try exact Hw. right; auto.
Qed.

Lemma Waiting_steps evs q : Inv q -> Waiting q -> Waiting (fold_left step evs q).
Proof.
  revert q. induction evs as [|ev evs IH]; intros q Hi Hw; cbn; [exact Hw|].
  apply IH; [apply Inv_step, Hi | apply Waiting_step; assumption].
Qed.

(** X1.  In every state a running query reaches, the reply timer is
    still pending exactly when no outcome has been delivered yet: every
    handler that delivers an outcome also disarms the timer, and the
    timer is lost only by delivering one. *)
Theorem timer_pending_iff_no_outcome server port cb junk evs :
  Js.typeof cb = "function" ->
  timerPending (run server port cb junk evs) = true <->
  callbacks (run server port cb junk evs) = [].
Proof.
  intros Hcb.
  assert (Hw : Waiting (run server port cb junk evs)).
  { apply Waiting_steps; [apply Inv_start, Hcb|].
    rewrite start_valid by assumption. left. split; reflexivity. }
  destruct Hw as [[Ht Hc]|[Ht Hc]]; rewrite Ht; split; intros H;
    try assumption; try reflexivity; try discriminate. contradiction.
Qed.

Lemma timer_pending_iff_no_outcome_witness :
  Js.typeof (Js.Function 0) = "function" /\
  (timerPending awaiting_reply = true <-> callbacks awaiting_reply = []).
Proof.
  split; [reflexivity|].
  exact (timer_pending_iff_no_outcome Js.Undefined Js.Undefined (Js.Function 0)
           stale [SendCompleted Js.Null] eq_refl).
Defined.

(** *** Runs without failures *)

Lemma Orderly_step q ev :
  Inv q -> failing ev = false -> Orderly q -> Orderly (step q ev).
Proof.
  destruct q as [ef so tp el ml sp tr]. unfold Inv, Orderly. cbn.
  intros (_ & Htp & _) Hev Ho.
  destruct ev as [|err|err|msg]; cbn in Hev; try discriminate;
    unfold_step; cbn -[decode_date].
  - destruct tp; cbn; [|exact Ho].
    destruct (Htp eq_refl) as [-> Hc]. cbn.
    destruct Ho as [(_ & _ & Hcl)|(Hso & _)]; [|discriminate].
    unfold callbacks in Hc. unfold closes in Hcl. cbn [trace] in Hc, Hcl.
    right. unfold_more. rewrite Hc, Hcl. repeat split.
  - rewrite Hev. destruct sp; cbn; [|exact Ho].
    revert Ho. unfold_more. auto.
  - destruct ml, so; cbn -[decode_date]; try exact Ho.
    destruct Ho as [(_ & Hc & Hcl)|(Hso & _)]; [|discriminate].
    unfold callbacks in Hc. unfold closes in Hcl. cbn [trace] in Hc, Hcl.
    right. unfold_more. rewrite Hc, Hcl. repeat split.
Qed.

Lemma Orderly_steps evs q :
  Inv q -> Forall (fun ev => failing ev = false) evs ->
  Orderly q -> Orderly (fold_left step evs q).
Proof.
  revert q. induction evs as [|ev evs IH]; intros q Hi Hall Ho; cbn; [exact Ho|].
  inversion Hall as [|? ? Hev Hrest]; subst.
  apply IH; [apply Inv_step, Hi | exact Hrest | apply Orderly_step; assumption].
Qed.

(** X3.  In a run without socket errors and without a failed [send],
    either nothing has been delivered and the socket is open and was
    never closed, or exactly one outcome has been delivered and the
    socket was closed exactly once. *)
Theorem exactly_once_without_failures server port cb junk evs :
  Js.typeof cb = "function" ->
  Forall (fun ev => failing ev = false) evs ->
  let q := run server port cb junk evs in
  (socketOpen q = true /\ callbacks q = [] /\ closes q = 0%nat) \/
  (socketOpen q = false /\ length (callbacks q) = 1%nat /\ closes q = 1%nat).
Proof.
  intros Hcb Hall q. apply Orderly_steps; [apply Inv_start, Hcb | exact Hall |].
  rewrite start_valid by assumption. left. repeat split.
Qed.

Lemma exactly_once_without_failures_witness :
  Js.typeof (Js.Function 0) = "function" /\
  Forall (fun ev => failing ev = false)
    [SendCompleted Js.Null; MessageArrived zero_reply; TimerExpired] /\
  ((socketOpen (run Js.Undefined Js.Undefined (Js.Function 0) stale
                  [SendCompleted Js.Null; MessageArrived zero_reply; TimerExpired])
      = true /\
    callbacks (run Js.Undefined Js.Undefined (Js.Function 0) stale
                 [SendCompleted Js.Null; MessageArrived zero_reply; TimerExpired])
      = [] /\
    closes (run Js.Undefined Js.Undefined (Js.Function 0) stale
              [SendCompleted Js.Null; MessageArrived zero_reply; TimerExpired])
      = 0%nat) \/
   (socketOpen (run Js.Undefined Js.Undefined (Js.Function 0) stale
                  [SendCompleted Js.Null; MessageArrived zero_reply; TimerExpired])
      = false /\
    length (callbacks (run Js.Undefined Js.Undefined (Js.Function 0) stale
                 [SendCompleted Js.Null; MessageArrived zero_reply; TimerExpired]))
      = 1%nat /\
    closes (run Js.Undefined Js.Undefined (Js.Function 0) stale
              [SendCompleted Js.Null; MessageArrived zero_reply; TimerExpired])
      = 1%nat)).
Proof.
  assert (H : Forall (fun ev => failing ev = false)
                [SendCompleted Js.Null; MessageArrived zero_reply; TimerExpired])
    by (repeat constructor).
  split; [reflexivity|]. split; [exact H|].
  exact (exactly_once_without_failures Js.Undefined Js.Undefined (Js.Function 0)
           stale _ eq_refl H).
Defined.

(** *** Dates *)

Lemma step_date_budget q ev :
  (length (successes (step q ev)) + b2n (socketOpen (step q ev))
     <= length (successes q) + b2n (socketOpen q))%nat.
Proof.
  destruct q as [ef so tp el ml sp tr].
  destruct ev as [|err|err|msg]; unfold_step; cbn -[decode_date].
  - destruct tp, so; cbn; unfold_more; cbn; lia.
  - destruct el, ef; cbn; unfold_more; cbn; lia.
  - destruct sp, (Js.ToBoolean err), ef, so; cbn; unfold_more; cbn; lia.
  - destruct ml, so; cbn -[decode_date]; unfold_more; cbn; lia.
Qed.

Lemma steps_date_budget evs q :
  (length (successes (fold_left step evs q)) + b2n (socketOpen (fold_left step evs q))
     <= length (successes q) + b2n (socketOpen q))%nat.
Proof.
  revert q. induction evs as [|ev evs IH]; intros q; cbn; [lia|].
  pose proof (IH (step q ev)). pose proof (step_date_budget q ev). lia.
Qed.

(** X4.  Whatever events occur, at most one date is ever delivered;
    this holds for every argument of the call. *)
Theorem at_most_one_date server port cb junk evs :
  (length (successes (run server port cb junk evs)) <= 1)%nat.
Proof.
  unfold run.
  pose proof (steps_date_budget evs (start server port cb junk)) as H.
  assert (Hs : (length (successes (start server port cb junk))
                + b2n (socketOpen (start server port cb junk)) <= 1)%nat).
  { unfold start, getNetworkTime.
    destruct (Js.is_null cb || negb (String.eqb (Js.typeof cb) "function"));
      cbn; rewrite ?request_packet_bytes; cbn; lia. }
  lia.
Qed.

(** *** The flag *)

Lemma errorFired_step q ev :
  errorFired q = true ->
  errorFired (step q ev) = true /\
  (failing ev = true -> callbacks (step q ev) = callbacks q).
Proof.
  destruct q as [ef so tp el ml sp tr]. cbn. intros ->.
  destruct ev as [|err|err|msg]; unfold_step; cbn -[decode_date].
  - destruct tp, so; cbn; split; auto; discriminate.
  - destruct el; cbn; auto.
  - destruct sp, (Js.ToBoolean err); cbn; split; auto; discriminate.
  - destruct ml, so; cbn -[decode_date]; split; auto; discriminate.
Qed.

Lemma errorFired_steps evs q :
  errorFired q = true -> errorFired (fold_left step evs q) = true.
Proof.
  revert q. induction evs as [|ev evs IH]; intros q Hq; cbn; [exact Hq|].
  apply IH, errorFired_step, Hq.
Qed.

Lemma failing_sets_flag q ev :
  failing ev = true -> callbacks (step q ev) <> callbacks q ->
  errorFired (step q ev) = true.
Proof.
  destruct q as [ef so tp el ml sp tr].
  destruct ev as [|err|err|msg]; cbn; try discriminate; intros Hev;
    unfold_step; cbn.
  - destruct el, ef; cbn; auto; intros H; contradiction H; reflexivity.
  - rewrite Hev. destruct sp, ef, so; cbn; auto; intros H; contradiction H; reflexivity.
Qed.

(** X5.  The flag does what its comment says: once a socket error or a
    send error has been delivered, no later socket error or send error
    invokes the callback again. *)
Theorem one_error_outcome server port cb junk evs ev evs' ev' :
  failing ev = true -> failing ev' = true ->
  callbacks (step (run server port cb junk evs) ev)
    <> callbacks (run server port cb junk evs) ->
  let q' := fold_left step evs' (step (run server port cb junk evs) ev) in
  callbacks (step q' ev') = callbacks q'.
Proof.
  intros Hev Hev' Hd q'.
  apply errorFired_step; [|exact Hev'].
  apply errorFired_steps, failing_sets_flag; assumption.
Qed.

Lemma one_error_outcome_witness :
  failing (SocketError (Js.Error "EACCES")) = true /\
  failing (SendCompleted (Js.Error "ENOTFOUND")) = true /\
  callbacks (step (run Js.Undefined Js.Undefined (Js.Function 0) stale [])
                  (SocketError (Js.Error "EACCES")))
    <> callbacks (run Js.Undefined Js.Undefined (Js.Function 0) stale []) /\
  callbacks (step (fold_left step [TimerExpired]
                     (step (run Js.Undefined Js.Undefined (Js.Function 0) stale [])
                           (SocketError (Js.Error "EACCES"))))
                  (SendCompleted (Js.Error "ENOTFOUND"))) =
  callbacks (fold_left step [TimerExpired]
               (step (run Js.Undefined Js.Undefined (Js.Function 0) stale [])
                     (SocketError (Js.Error "EACCES")))).
Proof.
  assert (H : callbacks (step (run Js.Undefined Js.Undefined (Js.Function 0) stale [])
                              (SocketError (Js.Error "EACCES")))
              <> callbacks (run Js.Undefined Js.Undefined (Js.Function 0) stale []))
    by (vm_compute; discriminate).
  split; [reflexivity|]. split; [reflexivity|]. split; [exact H|].
  exact (one_error_outcome Js.Undefined Js.Undefined (Js.Function 0) stale []
           (SocketError (Js.Error "EACCES")) [TimerExpired]
           (SendCompleted (Js.Error "ENOTFOUND")) eq_refl eq_refl H).
Defined.

(** *** Replies and the completion of send *)

(** X6.  The ['message'] listener is registered only by the completion
    of [send]: a datagram that arrives while [send] is pending changes
    nothing. *)
Theorem early_reply_is_dropped server port cb junk evs msg :
  Js.typeof cb = "function" ->
  sendPending (run server port cb junk evs) = true ->
  step (run server port cb junk evs) (MessageArrived msg) =
    run server port cb junk evs.
Proof.
  intros Hcb Hsp.
  destruct (Inv_run server port cb junk evs Hcb) as (_ & _ & Hml).
  specialize (Hml Hsp).
  destruct (run server port cb junk evs) as [ef so tp el ml sp tr].
  cbn in Hml. subst ml. reflexivity.
Qed.

Lemma early_reply_is_dropped_witness :
  Js.typeof (Js.Function 0) = "function" /\
  sendPending (run Js.Undefined Js.Undefined (Js.Function 0) stale []) = true /\
  step (run Js.Undefined Js.Undefined (Js.Function 0) stale [])
       (MessageArrived zero_reply) =
    run Js.Undefined Js.Undefined (Js.Function 0) stale [].
Proof.
  split; [reflexivity|]. split; [reflexivity|].
  exact (early_reply_is_dropped Js.Undefined Js.Undefined (Js.Function 0) stale []
           zero_reply eq_refl eq_refl).
Defined.

Lemma Unheard_step q ev : Inv q -> Unheard q -> Unheard (step q ev).
Proof.
  destruct q as [ef so tp el ml sp tr]. unfold Inv, Unheard. cbn.
  intros (_ & _ & Hml) Hu.
  destruct ev as [|err|err|msg]; unfold_step; cbn -[decode_date].
  - destruct tp, so; cbn; unfold_more; auto.
  - destruct el, ef; cbn; unfold_more; auto.
  - destruct sp, (Js.ToBoolean err), ef, so; cbn; unfold_more; auto; discriminate.
  - destruct ml, so; cbn -[decode_date]; unfold_more; auto.
    intros Hsp. specialize (Hml Hsp). discriminate.
Qed.

Lemma Unheard_steps evs q : Inv q -> Unheard q -> Unheard (fold_left step evs q).
Proof.
  revert q. induction evs as [|ev evs IH]; intros q Hi Hu; cbn; [exact Hu|].
  apply IH; [apply Inv_step, Hi | apply Unheard_step; assumption].
Qed.

Lemma Deaf_step q ev :
  Deaf q -> Deaf (step q ev) /\ successes (step q ev) = successes q.
Proof.
  destruct q as [ef so tp el ml sp tr]. unfold Deaf. cbn. intros [-> ->].
  destruct ev as [|err|err|msg]; unfold_step; cbn.
  - destruct tp, so; cbn; unfold_more; auto.
  - destruct el, ef; cbn; unfold_more; auto.
  - auto.
  - auto.
Qed.

Lemma Deaf_steps evs q :
  Deaf q -> successes (fold_left step evs q) = successes q.
Proof.
  revert q. induction evs as [|ev evs IH]; intros q Hq; cbn; [reflexivity|].
  destruct (Deaf_step q ev Hq) as [Hd <-]. apply IH, Hd.
Qed.

(** X7.  When [send] completes with an error, no date is delivered,
    neither before nor at any time after. *)
Theorem failed_send_never_delivers_a_date server port cb junk evs err evs' :
  Js.typeof cb = "function" ->
  sendPending (run server port cb junk evs) = true ->
  Js.ToBoolean err = true ->
  successes (fold_left step evs' (step (run server port cb junk evs)
                                       (SendCompleted err))) = [].
Proof.
  intros Hcb Hsp Herr.
  pose proof (Inv_run server port cb junk evs Hcb) as Hi.
  assert (Hu : Unheard (run server port cb junk evs)).
  { apply Unheard_steps; [apply Inv_start, Hcb|].
    rewrite start_valid by assumption. intros _. reflexivity. }
  specialize (Hu Hsp). destruct Hi as (_ & _ & Hml). specialize (Hml Hsp).
  destruct (run server port cb junk evs) as [ef so tp el ml sp tr].
  cbn in Hsp, Hml, Hu. subst sp ml.
  rewrite Deaf_steps.
  - unfold_step. cbn. rewrite Herr. destruct ef, so; cbn; revert Hu; unfold_more; auto.
  - unfold_step. cbn. rewrite Herr. destruct ef, so; cbn; split; reflexivity.
Qed.

Lemma failed_send_never_delivers_a_date_witness :
  Js.typeof (Js.Function 0) = "function" /\
  sendPending (run Js.Undefined Js.Undefined (Js.Function 0) stale []) = true /\
  Js.ToBoolean (Js.Error "ENOTFOUND") = true /\
  successes (fold_left step [MessageArrived zero_reply]
               (step (run Js.Undefined Js.Undefined (Js.Function 0) stale [])
                     (SendCompleted (Js.Error "ENOTFOUND")))) = [].
Proof.
  split; [reflexivity|]. split; [reflexivity|]. split; [reflexivity|].
  exact (failed_send_never_delivers_a_date Js.Undefined Js.Undefined (Js.Function 0)
           stale [] (Js.Error "ENOTFOUND") [MessageArrived zero_reply]
           eq_refl eq_refl eq_refl).
Defined.

(** *** Closing a closed socket *)





(** *** One socket, one listener *)

Lemma step_sockets q ev :
  sockets (step q ev) = sockets q /\
  (length (listens (step q ev)) + b2n (sendPending (step q ev))
     <= length (listens q) + b2n (sendPending q))%nat.
Proof.
  destruct q as [ef so tp el ml sp tr].
  destruct ev as [|err|err|msg]; unfold_step; cbn -[decode_date].
  - destruct tp, so; cbn; unfold_more; split; cbn; auto; lia.
  - destruct el, ef; cbn; unfold_more; split; cbn; auto; lia.
  - destruct sp, (Js.ToBoolean err), ef, so; cbn; unfold_more; split; cbn; auto; lia.
  - destruct ml, so; cbn -[decode_date]; unfold_more; split; cbn; auto; lia.
Qed.

Lemma steps_sockets evs q :
  sockets (fold_left step evs q) = sockets q /\
  (length (listens (fold_left step evs q)) + b2n (sendPending (fold_left step evs q))
     <= length (listens q) + b2n (sendPending q))%nat.
Proof.
  revert q. induction evs as [|ev evs IH]; intros q; cbn; [split; [reflexivity|lia]|].
  destruct (IH (step q ev)) as [-> H1]. destruct (step_sockets q ev) as [-> H2].
  split; [reflexivity|lia].
Qed.

(** X9.  A query creates exactly one socket, of type udp4, and
    registers the ['message'] listener at most once, whatever events
    occur. *)
Theorem one_socket_one_listener server port cb junk evs :
  Js.typeof cb = "function" ->
  sockets (run server port cb junk evs) = [CreateSocket "udp4"] /\
  (length (listens (run server port cb junk evs)) <= 1)%nat.
Proof.
  intros Hcb. unfold run.
  destruct (steps_sockets evs (start server port cb junk)) as [-> H].
  rewrite start_valid in H |- * by assumption. cbn in H. split; [reflexivity|lia].
Qed.

Lemma one_socket_one_listener_witness :
  Js.typeof (Js.Function 0) = "function" /\
  sockets (run Js.Undefined Js.Undefined (Js.Function 0) stale
               [SendCompleted Js.Null; SendCompleted Js.Null]) =
    [CreateSocket "udp4"] /\
  (length (listens (run Js.Undefined Js.Undefined (Js.Function 0) stale
                        [SendCompleted Js.Null; SendCompleted Js.Null])) <= 1)%nat.
Proof.
  split; [reflexivity|].
  exact (one_socket_one_listener Js.Undefined Js.Undefined (Js.Function 0) stale
           [SendCompleted Js.Null; SendCompleted Js.Null] eq_refl).
Defined.

(** ** Further properties of the decoder *)

(** X10.  Only bytes 40 to 47 of a reply are read: two datagrams that
    agree on them have the same effect on every query state, whatever
    their other bytes and their lengths. *)
Theorem reply_header_is_ignored msg msg' q :
  (forall i, (40 <= i < 48)%nat -> msg !! i = msg' !! i) ->
  step q (MessageArrived msg) = step q (MessageArrived msg').
Proof.
  intros H. destruct (decode_ext msg msg' H) as (_ & _ & _ & Hd).
  unfold step, dispatch, onMessage. rewrite Hd. reflexivity.
Qed.

Lemma reply_header_is_ignored_witness :
  (forall i, (40 <= i < 48)%nat -> zero_reply !! i = padded_zero_reply !! i) /\
  step awaiting_reply (MessageArrived zero_reply) =
    step awaiting_reply (MessageArrived padded_zero_reply).
Proof.
  assert (H : forall i, (40 <= i < 48)%nat ->
                        zero_reply !! i = padded_zero_reply !! i).
  { intros i Hi. unfold zero_reply, padded_zero_reply.
    rewrite lookup_replicate_2 by lia.
    rewrite lookup_app_r by (simpl; lia).
    rewrite lookup_replicate_2 by (simpl; lia). reflexivity. }
  split; [exact H | exact (reply_header_is_ignored _ _ awaiting_reply H)].
Defined.

(** X11.  A reply of at least 48 bytes always decodes to a valid date,
    between 1900-01-01T00:00:00Z and [2^32] seconds later
    (2036-02-07T06:28:16Z). *)
Theorem decoded_date_within_era msg :
  (48 <= length msg)%nat ->
  exists tv,
    decode_date msg = Some tv /\
    Date.UTC_Jan_01 1900 <= tv <= Date.UTC_Jan_01 1900 + 2 ^ 32 * 1000.
Proof.
  intros Hlen.
  destruct (decode_parts msg Hlen) as (_ & _ & Hi & Hf).
  destruct (decode_date_bounds msg Hlen) as (t & Hd & Hlo & Hhi).
  exists (Date.UTC_Jan_01 1900 + t). split; [exact Hd|].
  assert (Hdiv : 0 <= spec_fractpart msg * 1000 / 2 ^ 32 < 1000).
  { split; [apply Z.div_pos; lia | apply Z.div_lt_upper_bound; lia]. }
  lia.
Qed.

Lemma decoded_date_within_era_witness :
  (48 <= length carry_reply)%nat /\
  exists tv,
    decode_date carry_reply = Some tv /\
    Date.UTC_Jan_01 1900 <= tv <= Date.UTC_Jan_01 1900 + 2 ^ 32 * 1000.
Proof.
  assert (H : (48 <= length carry_reply)%nat) by (simpl; lia).
  split; [exact H | exact (decoded_date_within_era carry_reply H)].
Defined.

Lemma add_zero_r_dyadic a e : Js.add (dyadic a e) (dyadic 0 (-32)) = dyadic a e.
Proof.
  unfold dyadic. simpl (0 =? 0). cbv iota.
  destruct (a =? 0); reflexivity.
Qed.

(** X12.  A reply whose fraction field is zero decodes without any
    rounding: the milliseconds value is [intpart * 1000] and the time
    value of the date is [(intpart - 2208988800) * 1000]. *)
Theorem whole_seconds_decode_exactly msg :
  (48 <= length msg)%nat ->
  spec_fractpart msg = 0 ->
  decode_milliseconds msg = Js.of_Z (spec_intpart msg * 1000) /\
  decode_date msg = Some ((spec_intpart msg - 2208988800) * 1000).
Proof.
  intros Hlen Hf.
  destruct (decode_parts msg Hlen) as (_ & _ & Hi & _).
  assert (H53 : 2 ^ 32 * 1000 < 2 ^ 53) by reflexivity.
  assert (H44 : 2 ^ 32 * 1000 < 2 ^ 44) by reflexivity.
  assert (Hm : decode_milliseconds msg = dyadic (spec_intpart msg * 1000) 0).
  { rewrite decode_milliseconds_sum, Hf by assumption. apply add_zero_r_dyadic. }
  split; [rewrite Hm, of_Z_dyadic by lia; reflexivity|].
  rewrite (decode_date_of_ms msg (spec_intpart msg * 1000)).
  - f_equal. change (Date.UTC_Jan_01 1900) with (-2208988800000). lia.
  - rewrite Hm, trunc_dyadic by lia. simpl (- 0).
    rewrite Z.pow_0_r, Z.div_1_r. reflexivity.
  - lia.
Qed.

Lemma whole_seconds_decode_exactly_witness :
  (48 <= length year_2000_reply)%nat /\
  spec_fractpart year_2000_reply = 0 /\
  decode_milliseconds year_2000_reply =
    Js.of_Z (spec_intpart year_2000_reply * 1000) /\
  decode_date year_2000_reply =
    Some ((spec_intpart year_2000_reply - 2208988800) * 1000).
Proof.
  assert (H : (48 <= length year_2000_reply)%nat) by (simpl; lia).
  split; [exact H|]. split; [reflexivity|].
  exact (whole_seconds_decode_exactly year_2000_reply H eq_refl).
Defined.

(** ** The demonstration entry point *)

Lemma step_well_formed q ev :
  truthy_error ev = true ->
  Forall well_formed (trace q) -> Forall well_formed (trace (step q ev)).
Proof.
  assert (Hsnoc : forall tr e, Forall well_formed tr -> well_formed e ->
                               Forall well_formed (tr ++ [e])).
  { intros tr e Htr He. apply Forall_app. split; [exact Htr|].
    constructor; [exact He | constructor]. }
  destruct q as [ef so tp el ml sp tr]. cbn. intros Hev Hwf.
  destruct ev as [|err|err|msg]; cbn in Hev; unfold_step; cbn -[decode_date].
  - destruct tp, so; cbn; repeat apply Hsnoc; cbn; auto.
  - destruct el, ef; cbn; repeat apply Hsnoc; cbn; auto.
  - destruct sp, (Js.ToBoolean err) eqn:Herr, ef, so; cbn;
      repeat apply Hsnoc; cbn; auto.
  - destruct ml, so; cbn -[decode_date]; repeat apply Hsnoc; cbn -[decode_date];
      eauto.
Qed.

Lemma steps_well_formed evs q :
  Forall (fun ev => truthy_error ev = true) evs ->
  Forall well_formed (trace q) ->
  Forall well_formed (trace (fold_left step evs q)).
Proof.
  revert q. induction evs as [|ev evs IH]; intros q Hall Hwf; cbn; [exact Hwf|].
  inversion Hall as [|? ? Hev Hrest]; subst.
  apply IH; [exact Hrest | apply step_well_formed; assumption].
Qed.

Lemma console_of_well_formed q :
  Forall well_formed (trace q) ->
  printed_dates q = delivered_dates q /\
  printed_errors q = delivered_errors q /\
  length (console q) = length (callbacks q).
Proof.
  unfold printed_dates, printed_errors, delivered_dates, delivered_errors,
    console, callbacks.
  induction (trace q) as [|e tr IH]; intros Hwf; [repeat split|].
  inversion Hwf as [|? ? He Hrest]; subst.
  destruct (IH Hrest) as (IH1 & IH2 & IH3).
  destruct e; cbn [flat_map List.filter is_callback app]; auto.
  rewrite !List.flat_map_app, List.length_app, IH1, IH2, IH3.
  cbn in He. unfold demo_callback.
  destruct He as [[Herr ->]|[-> [tv ->]]].
  - rewrite Herr. destruct err; repeat split; reflexivity.
  - repeat split; reflexivity.
Qed.

(** X15.  [demo] queries pool.ntp.org on port 123 and prints one line
    per outcome: the delivered dates with [console.log], the delivered
    errors with [console.error], provided every ['error'] event carries
    a truthy value. *)
Theorem demo_prints_each_outcome junk evs :
  Forall (fun ev => truthy_error ev = true) evs ->
  let q := demo junk evs in
  datagrams q = [Send request defaultNtpPort defaultNtpServer] /\
  printed_dates q = delivered_dates q /\
  printed_errors q = delivered_errors q /\
  length (console q) = length (callbacks q).
Proof.
  intros Hall q. split.
  - unfold q, demo, run.
    destruct (steps_datagrams evs (start defaultNtpServer defaultNtpPort
                                     (Js.Function 0) junk)) as [-> _].
    rewrite start_valid by reflexivity. reflexivity.
  - apply console_of_well_formed. unfold q, demo, run.
    apply steps_well_formed; [exact Hall|].
    rewrite start_valid by reflexivity. repeat constructor.
Qed.

Lemma demo_prints_each_outcome_witness :
  Forall (fun ev => truthy_error ev = true)
    [SendCompleted Js.Null; SocketError (Js.Error "ECONNREFUSED");
     MessageArrived short_reply] /\
  datagrams (demo stale [SendCompleted Js.Null; SocketError (Js.Error "ECONNREFUSED");
                         MessageArrived short_reply]) =
    [Send request defaultNtpPort defaultNtpServer] /\
  printed_dates (demo stale [SendCompleted Js.Null;
                             SocketError (Js.Error "ECONNREFUSED");
                             MessageArrived short_reply]) =
    delivered_dates (demo stale [SendCompleted Js.Null;
                                 SocketError (Js.Error "ECONNREFUSED");
                                 MessageArrived short_reply]) /\
  printed_errors (demo stale [SendCompleted Js.Null;
                              SocketError (Js.Error "ECONNREFUSED");
                              MessageArrived short_reply]) =
    delivered_errors (demo stale [SendCompleted Js.Null;
                                  SocketError (Js.Error "ECONNREFUSED");
                                  MessageArrived short_reply]) /\
  length (console (demo stale [SendCompleted Js.Null;
                               SocketError (Js.Error "ECONNREFUSED");
                               MessageArrived short_reply])) =
    length (callbacks (demo stale [SendCompleted Js.Null;
                                   SocketError (Js.Error "ECONNREFUSED");
                                   MessageArrived short_reply])).
Proof.
  assert (H : Forall (fun ev => truthy_error ev = true)
                [SendCompleted Js.Null; SocketError (Js.Error "ECONNREFUSED");
                 MessageArrived short_reply])
    by (repeat constructor).
  split; [exact H | exact (demo_prints_each_outcome stale _ H)].
Defined.

(** ** Lemmas: rounding as a function of the remainder *)

Lemma rne_formula M k :
  0 < k ->
  rne M k =
    if 2 * (M mod 2 ^ k) <? 2 ^ k then M / 2 ^ k
    else if 2 * (M mod 2 ^ k) =? 2 ^ k
         then (if Z.even (M / 2 ^ k) then M / 2 ^ k else M / 2 ^ k + 1)
         else M / 2 ^ k + 1.
Proof.
  intros Hk. unfold rne, shifted, loc_of_shr_record, round_nearest_even.
  assert (Hp : 0 < 2 ^ (k - 1)) by (apply pow2_pos; lia).
  assert (H2 : 2 ^ k = 2 ^ (k - 1) * 2).
  { replace k with ((k - 1) + 1) at 1 by lia. rewrite Z.pow_add_r by lia. reflexivity. }
  assert (Hr : M mod 2 ^ k =
               M mod 2 ^ (k - 1) + 2 ^ (k - 1) * (if Z.odd (M / 2 ^ (k - 1)) then 1 else 0)).
  { rewrite H2, Z.rem_mul_r by lia. rewrite (Zmod_odd (M / 2 ^ (k - 1))). reflexivity. }
  rewrite Z.testbit_odd, Z.shiftr_div_pow2 by lia.
  rewrite Hr, H2.
  pose proof (Z.mod_pos_bound M (2 ^ (k - 1)) Hp) as Hs.
  destruct (Z.odd (M / 2 ^ (k - 1)));
    destruct (Z.eqb_spec (M mod 2 ^ (k - 1)) 0) as [E|E]; cbn [negb];
    repeat match goal with
           | |- context [?a <? ?b] => destruct (Z.ltb_spec a b); try lia
           | |- context [?a =? ?b] => destruct (Z.eqb_spec a b); try lia
           end; reflexivity.
Qed.

Lemma rne_mono N N' k :
  0 < k -> 0 <= N <= N' -> rne N k <= rne N' k.
Proof.
  intros Hk [HN HNN'].
  assert (Hp : 0 < 2 ^ k) by (apply pow2_pos; lia).
  pose proof (Z.div_le_mono N N' (2 ^ k) Hp HNN') as Hq.
  destruct (Z.eq_dec (N / 2 ^ k) (N' / 2 ^ k)) as [Heq|Hne].
  - pose proof (Z.div_mod N (2 ^ k) ltac:(lia)) as HdN.
    pose proof (Z.div_mod N' (2 ^ k) ltac:(lia)) as HdN'.
    assert (Hr : N mod 2 ^ k <= N' mod 2 ^ k) by (rewrite Heq in HdN; nia).
    rewrite !rne_formula by assumption. rewrite <- Heq.
    repeat match goal with
           | |- context [?a <? ?b] => destruct (Z.ltb_spec a b); try lia
           | |- context [?a =? ?b] => destruct (Z.eqb_spec a b); try lia
           end;
      destruct (Z.even (N / 2 ^ k)); lia.
  - destruct (rne_bounds N k Hk) as [->|[-> _]];
      destruct (rne_bounds N' k Hk) as [->|[-> _]]; lia.
Qed.

Lemma rne_shift N k j :
  0 <= N -> 0 < k -> 0 <= j -> rne (N * 2 ^ j) (k + j) = rne N k.
Proof.
  intros HN Hk Hj.
  assert (Hpj : 0 < 2 ^ j) by (apply pow2_pos; lia).
  assert (Hpk : 0 < 2 ^ k) by (apply pow2_pos; lia).
  rewrite !rne_formula by lia.
  rewrite (Z.pow_add_r 2 k j) by lia.
  rewrite Z.div_mul_cancel_r by lia.
  rewrite Z.mul_mod_distr_r by lia.
  repeat match goal with
         | |- context [?a <? ?b] => destruct (Z.ltb_spec a b); try nia
         | |- context [?a =? ?b] => destruct (Z.eqb_spec a b); try nia
         end; reflexivity.
Qed.

Lemma dg_mono N N' : 0 < N <= N' -> dg N <= dg N'.
Proof. intros [H0 H]. unfold dg. pose proof (Z.log2_le_mono N N' H). lia. Qed.

Lemma round_sum_exact n j :
  0 < n < 2 ^ 53 -> 0 <= j -> round_sum (n * 2 ^ j) = n * 2 ^ j.
Proof.
  intros [Hn Hlt] Hj. unfold round_sum.
  destruct (Z.ltb_spec (n * 2 ^ j) (2 ^ 53)) as [|Hbig]; [reflexivity|].
  pose proof (dg_le n 53 Hn Hlt) as Hd. pose proof (dg_pos n Hn) as Hd0.
  assert (Hpj : 0 < 2 ^ j) by (apply pow2_pos; lia).
  rewrite dg_shift by lia.
  assert (Hk : 0 < dg n + j - 53).
  { destruct (Z_lt_le_dec 0 (dg n + j - 53)); [assumption|].
    pose proof (dg_bounds (n * 2 ^ j) ltac:(nia)) as [_ Hu].
    rewrite dg_shift in Hu by lia.
    assert (2 ^ (dg n + j) <= 2 ^ 53) by (apply Z.pow_le_mono_r; lia). lia. }
  assert (Hsplit : n * 2 ^ j = n * 2 ^ (53 - dg n) * 2 ^ (dg n + j - 53)).
  { rewrite <- Z.mul_assoc, <- Z.pow_add_r by lia. do 2 f_equal. lia. }
  rewrite rne_exact; [ | lia | rewrite Hsplit; apply Z.mod_mul; lia ].
  rewrite Hsplit at 1. rewrite Z.div_mul by lia. symmetry. exact Hsplit.
Qed.

Lemma round_sum_mono N N' : 0 < N <= N' -> round_sum N <= round_sum N'.
Proof.
  intros [HN HNN']. unfold round_sum.
  assert (H53 : 2 ^ 53 = 2 ^ 52 * 2) by reflexivity.
  destruct (Z.ltb_spec N (2 ^ 53)) as [Hs|Hb];
    destruct (Z.ltb_spec N' (2 ^ 53)) as [Hs'|Hb']; try lia.
  - (* N exact, N' rounded *)
    pose proof (dg_bounds N' ltac:(lia)) as [Hlo' Hhi'].
    assert (Hk' : 0 < dg N' - 53).
    { destruct (Z_lt_le_dec 0 (dg N' - 53)); [assumption|].
      assert (2 ^ dg N' <= 2 ^ 53) by (apply Z.pow_le_mono_r; lia). lia. }
    pose proof (rne_range N' (dg N' - 53) ltac:(lia) Hk' ltac:(lia)) as [Hr _].
    assert (Hp : 0 < 2 ^ (dg N' - 53)) by (apply pow2_pos; lia).
    assert (2 ^ 53 <= 2 ^ 52 * 2 ^ (dg N' - 53)).
    { rewrite H53. apply Z.mul_le_mono_nonneg_l; [lia|].
      change 2 with (2 ^ 1) at 1. apply Z.pow_le_mono_r; lia. }
    nia.
  - (* both rounded *)
    pose proof (dg_mono N N' ltac:(lia)) as Hd.
    pose proof (dg_bounds N ltac:(lia)) as [Hlo Hhi].
    pose proof (dg_bounds N' ltac:(lia)) as [Hlo' Hhi'].
    assert (Hk : 0 < dg N - 53).
    { destruct (Z_lt_le_dec 0 (dg N - 53)); [assumption|].
      assert (2 ^ dg N <= 2 ^ 53) by (apply Z.pow_le_mono_r; lia). lia. }
    destruct (Z.eq_dec (dg N) (dg N')) as [Heq|Hne].
    + rewrite <- Heq.
      apply Z.mul_le_mono_nonneg_r; [apply Z.pow_nonneg; lia|].
      apply rne_mono; lia.
    + pose proof (rne_range N (dg N - 53) ltac:(lia) Hk ltac:(lia)) as [_ Hr].
      pose proof (rne_range N' (dg N' - 53) ltac:(lia) ltac:(lia) ltac:(lia)) as [Hr' _].
      assert (Hp : 0 < 2 ^ (dg N - 53)) by (apply pow2_pos; lia).
      assert (Hstep : 2 ^ (dg N' - 53) = 2 ^ (dg N' - dg N - 1) * (2 * 2 ^ (dg N - 53))).
      { rewrite <- (Z.pow_succ_r 2 (dg N - 53)) by lia.
        rewrite <- Z.pow_add_r by lia. f_equal. lia. }
      assert (Hq : 0 < 2 ^ (dg N' - dg N - 1)) by (apply pow2_pos; lia).
      rewrite Hstep. nia.
Qed.

Lemma trunc_add_ms_exact a b :
  0 <= a < 2 ^ 43 -> 0 <= b < 2 ^ 43 ->
  Js.trunc (Js.add (dyadic a 0) (dyadic b (-32))) =
    Some (round_sum (a * 2 ^ 32 + b) / 2 ^ 32).
Proof.
  intros [Ha Halt] [Hb Hblt].
  assert (H43 : 2 ^ 43 < 2 ^ 53) by (apply Z.pow_lt_mono_r; lia).
  destruct (Z.eq_dec a 0) as [->|Haz].
  { replace (Js.add (dyadic 0 0) (dyadic b (-32))) with (dyadic b (-32))
      by (unfold dyadic; simpl (0 =? 0); cbv iota; destruct (b =? 0); reflexivity).
    rewrite trunc_dyadic by lia. unfold round_sum.
    replace (0 * 2 ^ 32 + b) with b by lia.
    destruct (Z.ltb_spec b (2 ^ 53)); [reflexivity | lia]. }
  destruct (Z.eq_dec b 0) as [->|Hbz].
  { rewrite add_zero_r_dyadic, trunc_dyadic by lia.
    rewrite Z.add_0_r, round_sum_exact by lia.
    simpl (- 0). rewrite Z.pow_0_r, Z.div_1_r, Z.div_mul by lia. reflexivity. }
  assert (Ha53 : 0 < a < 2 ^ 53) by lia.
  assert (Hb53 : 0 < b < 2 ^ 53) by lia.
  pose proof (canon_exponent_le a Ha53) as Hda.
  pose proof (canon_exponent_le b Hb53) as Hdb.
  pose proof (dg_pos a ltac:(lia)) as Hda0.
  pose proof (dg_pos b ltac:(lia)) as Hdb0.
  unfold dyadic.
  destruct (Z.eqb_spec a 0); [lia|]. destruct (Z.eqb_spec b 0); [lia|].
  rewrite add_canon by assumption.
  set (ez := Z.min (0 + dg a - 53) (-32 + dg b - 53)).
  set (j := - 32 - ez).
  set (N := a * 2 ^ 32 + b).
  assert (Hj : 0 <= j) by (unfold j, ez; lia).
  assert (HN0 : 0 < N) by (unfold N; lia).
  assert (HS : a * 2 ^ (0 - ez) + b * 2 ^ j = N * 2 ^ j).
  { unfold N. rewrite Z.mul_add_distr_r, <- Z.mul_assoc, <- Z.pow_add_r by lia.
    do 3 f_equal; unfold j; lia. }
  rewrite HS. replace ez with (- 32 - j) by (unfold j; lia).
  assert (HNlt : N < 2 ^ 76).
  { unfold N. change (2 ^ 76) with (2 ^ 43 * 2 ^ 32 + 2 ^ 43 * 2 ^ 32). nia. }
  pose proof (dg_le N 76 HN0 HNlt) as HdN.
  pose proof (dg_pos N HN0) as HdN0.
  unfold round_sum.
  destruct (Z.ltb_spec N (2 ^ 53)) as [Hsmall|Hbig].
  - rewrite binary_normalize_exact by lia.
    pose proof (trunc_dyadic N (-32) ltac:(lia) ltac:(lia)) as Ht.
    unfold dyadic in Ht. destruct (Z.eqb_spec N 0); [lia|]. exact Ht.
  - assert (HdN53 : 54 <= dg N).
    { destruct (Z_lt_le_dec (dg N) 54); [|lia].
      pose proof (dg_bounds N HN0) as [_ Hu].
      assert (2 ^ dg N <= 2 ^ 53) by (apply Z.pow_le_mono_r; lia). lia. }
    assert (HSpos : 0 < N * 2 ^ j)
      by (apply Z.mul_pos_pos; [lia | apply pow2_pos; lia]).
    assert (HdS : dg (N * 2 ^ j) = dg N + j) by (apply dg_shift; lia).
    rewrite binary_normalize_long by lia.
    rewrite binary_round_aux_spec by lia.
    unfold round53. rewrite HdS.
    destruct (Z.leb_spec (dg N + j - 53) 0) as [|Hk]; [lia|].
    replace (dg N + j - 53) with ((dg N - 53) + j) by lia.
    rewrite rne_shift by lia.
    set (k := dg N - 53) in *.
    pose proof (rne_range N k HN0 ltac:(lia) ltac:(unfold k; lia)) as Hr.
    set (m1 := rne N k) in *.
    assert (Hpk : 0 < 2 ^ k) by (apply pow2_pos; lia).
    assert (Hgoal : (m1 * 2 ^ k) / 2 ^ 32 = m1 / 2 ^ (32 - k)).
    { replace 32 with ((32 - k) + k) at 1 by lia.
      rewrite Z.pow_add_r by (unfold k; lia).
      rewrite Z.div_mul_cancel_r; [reflexivity | | lia].
      pose proof (pow2_pos (32 - k) ltac:(unfold k; lia)). lia. }
    rewrite Hgoal.
    destruct (Z.eqb_spec m1 (2 ^ 53)) as [E|E]; cbn [fst snd].
    + change (Z.to_pos (2 ^ 52)) with (2 ^ 52)%positive.
      rewrite trunc_finite_neg by (unfold k; lia). f_equal.
      rewrite E.
      replace (32 - k) with ((- (-32 - j + (k + j) + 1)) + 1) by lia.
      rewrite (Z.pow_add_r 2 _ 1) by (unfold k; lia).
      change (2 ^ 53) with (2 ^ 52 * 2 ^ 1).
      rewrite Z.div_mul_cancel_r; [reflexivity | | lia].
      pose proof (pow2_pos (- (-32 - j + (k + j) + 1)) ltac:(unfold k; lia)). lia.
    + rewrite trunc_finite_neg by (unfold k; lia).
      rewrite Z2Pos.id by lia. do 3 f_equal. lia.
Qed.

Lemma spec_scaled_range msg :
  (48 <= length msg)%nat -> 0 <= spec_scaled msg < 2 ^ 32 * 1000 * 2 ^ 32.
Proof.
  intros Hlen. destruct (decode_parts msg Hlen) as (_ & _ & Hi & Hf).
  unfold spec_scaled. assert (0 < 2 ^ 32) by reflexivity. nia.
Qed.

Lemma decode_date_exact msg :
  (48 <= length msg)%nat ->
  decode_date msg =
    Some (Date.UTC_Jan_01 1900 + round_sum (spec_scaled msg) / 2 ^ 32).
Proof.
  intros Hlen. destruct (decode_parts msg Hlen) as (_ & _ & Hi & Hf).
  assert (H43 : 2 ^ 32 * 1000 < 2 ^ 43) by reflexivity.
  assert (H44 : 2 ^ 32 * 1000 + 1001 < 2 ^ 44) by reflexivity.
  destruct (trunc_add_ms (spec_intpart msg * 1000) (spec_fractpart msg * 1000))
    as (t & Ht & Hlo & Hhi); [lia | lia |].
  pose proof (trunc_add_ms_exact (spec_intpart msg * 1000) (spec_fractpart msg * 1000)
                ltac:(lia) ltac:(lia)) as Hex.
  fold (spec_scaled msg) in Hex.
  rewrite Ht in Hex. injection Hex as <-.
  assert (Hdiv : 0 <= spec_fractpart msg * 1000 / 2 ^ 32 < 1000).
  { split; [apply Z.div_pos; lia | apply Z.div_lt_upper_bound; lia]. }
  apply decode_date_of_ms; [|lia].
  rewrite decode_milliseconds_sum by assumption. exact Ht.
Qed.

(** X13.  For a reply of at least 48 bytes the date delivered is the
    epoch plus the integer part of [R / 2^32] milliseconds, where [R] is
    the timestamp in units of [2^-32] ms, rounded to 53 significant
    bits (to nearest, ties to even) when it does not fit. *)
Theorem delivered_time_is_rounded_sum msg q :
  (48 <= length msg)%nat ->
  messageListener q = true -> socketOpen q = true ->
  callbacks (step q (MessageArrived msg)) =
    callbacks q ++
    [Callback Js.Null
       (Js.Date (Some (Date.UTC_Jan_01 1900
                       + round_sum (spec_scaled msg) / 2 ^ 32)))].
Proof.
  intros Hlen Hl Ho.
  rewrite message_delivered, decode_date_exact by assumption. reflexivity.
Qed.

Lemma delivered_time_is_rounded_sum_witness :
  (48 <= length carry_reply)%nat /\
  messageListener awaiting_reply = true /\ socketOpen awaiting_reply = true /\
  callbacks (step awaiting_reply (MessageArrived carry_reply)) =
    callbacks awaiting_reply ++
    [Callback Js.Null
       (Js.Date (Some (Date.UTC_Jan_01 1900
                       + round_sum (spec_scaled carry_reply) / 2 ^ 32)))].
Proof.
  assert (H : (48 <= length carry_reply)%nat) by (simpl; lia).
  split; [exact H|]. split; [reflexivity|]. split; [reflexivity|].
  exact (delivered_time_is_rounded_sum carry_reply awaiting_reply H eq_refl eq_refl).
Defined.

(** X14.  Decoding preserves order: of two replies of at least 48
    bytes, the one with the later Transmit Timestamp (seconds, then
    fraction) never decodes to an earlier date. *)
Theorem decoding_is_monotone msg msg' :
  (48 <= length msg)%nat -> (48 <= length msg')%nat ->
  spec_intpart msg < spec_intpart msg' \/
  (spec_intpart msg = spec_intpart msg' /\
   spec_fractpart msg <= spec_fractpart msg') ->
  exists tv tv',
    decode_date msg = Some tv /\ decode_date msg' = Some tv' /\ tv <= tv'.
Proof.
  intros Hlen Hlen' Hle.
  destruct (decode_parts msg Hlen) as (_ & _ & Hi & Hf).
  destruct (decode_parts msg' Hlen') as (_ & _ & Hi' & Hf').
  assert (H32 : 0 < 2 ^ 32) by reflexivity.
  assert (Hs : spec_scaled msg <= spec_scaled msg').
  { unfold spec_scaled. destruct Hle as [Hlt|[Heq Hfle]]; [nia | rewrite Heq; lia]. }
  exists (Date.UTC_Jan_01 1900 + round_sum (spec_scaled msg) / 2 ^ 32),
         (Date.UTC_Jan_01 1900 + round_sum (spec_scaled msg') / 2 ^ 32).
  rewrite !decode_date_exact by assumption.
  split; [reflexivity|]. split; [reflexivity|].
  apply Z.add_le_mono_l, Z.div_le_mono; [lia|].
  pose proof (spec_scaled_range msg Hlen) as [H0 _].
  destruct (Z.eq_dec (spec_scaled msg) 0) as [E|E].
  - rewrite E. change (round_sum 0) with 0.
    pose proof (spec_scaled_range msg' Hlen') as [H0' _].
    destruct (Z.eq_dec (spec_scaled msg') 0) as [E'|E'];
      [rewrite E'; reflexivity|].
    pose proof (round_sum_mono 1 (spec_scaled msg') ltac:(lia)) as H.
    change (round_sum 1) with 1 in H. lia.
  - apply round_sum_mono. lia.
Qed.

Lemma decoding_is_monotone_witness :
  (48 <= length half_second_reply)%nat /\ (48 <= length carry_reply)%nat /\
  (spec_intpart half_second_reply < spec_intpart carry_reply \/
   (spec_intpart half_second_reply = spec_intpart carry_reply /\
    spec_fractpart half_second_reply <= spec_fractpart carry_reply)) /\
  exists tv tv',
    decode_date half_second_reply = Some tv /\
    decode_date carry_reply = Some tv' /\ tv <= tv'.
Proof.
  assert (H : (48 <= length half_second_reply)%nat) by (simpl; lia).
  assert (H' : (48 <= length carry_reply)%nat) by (simpl; lia).
  assert (Hlt : spec_intpart half_second_reply < spec_intpart carry_reply)
    by reflexivity.
  split; [exact H|]. split; [exact H'|]. split; [left; exact Hlt|].
  exact (decoding_is_monotone half_second_reply carry_reply H H' (or_introl Hlt)).
Defined.
